(** * Rate-limited, cursor-paginated ingestion: a shallow embedding

    This development embeds [PaginatedAPIClient] of
    [src/apis/rest-pagination.py] in Rocq and settles the properties the
    specification states about it.

    Modelling choices, all visible in the definitions below:
    - Python values that come out of [response.json()] are values of [json];
      Python truthiness, [dict.get], iteration and [len] are written out.
    - Exceptions are values of [exn]; a computation that may raise returns a
      [Result].
    - The client's mutable attribute [_last_request_time], the wall clock and
      the trace of what the client did live in an explicit [State] threaded
      through every operation.
    - The outside world is an [Env]: what the transport answers to the k-th
      network call, how much time each primitive takes beyond what it was
      asked to take (always non-negative in the theorems), and Python's
      built-in [int] on header strings.
    - Time is an exact rational number of seconds.
    - [fetch_all] is a generator; its model is the full consumption of that
      generator, with fuel for the [while True] loop.
    - [fetch_parallel] runs on a thread pool; its model runs the submitted
      calls one after the other in an arbitrary order, which is also the
      order in which they complete. *)

From Stdlib Require Import ZArith QArith Qminmax Qround Lqa Lia List Ascii String.
From stdpp Require Import base option list gmap strings.

Local Open Scope string_scope.
Local Open Scope list_scope.
Local Open Scope Z_scope.

(** ** Exceptions and results *)

Inductive exn : Type :=
| Timeout               (* requests.exceptions.Timeout *)
| ConnectionError       (* requests.exceptions.ConnectionError *)
| HTTPError (status : Z)(* requests.exceptions.HTTPError, from raise_for_status *)
| JSONDecodeError       (* requests.exceptions.JSONDecodeError *)
| AttributeError
| TypeError
| ValueError
| ZeroDivisionError.

(** [isinstance(e, requests.exceptions.RequestException)] *)
Definition is_RequestException (e : exn) : bool :=
  match e with
  | Timeout | ConnectionError | HTTPError _ | JSONDecodeError => true
  | AttributeError | TypeError | ValueError | ZeroDivisionError => false
  end.

Inductive Result (A : Type) : Type :=
| Ok (a : A)
| Raise (e : exn).
Arguments Ok {A} a.
Arguments Raise {A} e.

(** [Result] is a monad; stdpp's [x ← r; k] sequences statements and stops
    at the first one that raises. *)
#[global] Instance result_ret : MRet Result := fun _ a => Ok a.
#[global] Instance result_bind : MBind Result := fun _ _ k r =>
  match r with
  | Ok a => k a
  | Raise e => Raise e
  end.

(** ** Python values decoded from JSON *)

#[local] Set Warnings "-register-all".

Inductive json : Type :=
| JNull
| JBool (b : bool)
| JInt (z : Z)
| JFloat (q : Q)
| JStr (s : string)
| JList (l : list json)
| JObj (kv : list (string * json)).

(** Python truthiness, as used by [or], [if cursor] and [not result.data]. *)
Definition truthy (v : json) : bool :=
  match v with
  | JNull => false
  | JBool b => b
  | JInt z => negb (z =? 0)
  | JFloat q => negb (Qeq_bool q 0)
  | JStr s => negb (String.eqb s "")
  | JList l => match l with [] => false | _ :: _ => true end
  | JObj kv => match kv with [] => false | _ :: _ => true end
  end.

Fixpoint assoc (k : string) (kv : list (string * json)) : option json :=
  match kv with
  | [] => None
  | (k', v) :: kv' => if String.eqb k k' then Some v else assoc k kv'
  end.

(** [v.get(k, dflt)]: only a dict has [get]. *)
Definition py_get (v : json) (k : string) (dflt : json) : Result json :=
  match v with
  | JObj kv => Ok (default dflt (assoc k kv))
  | _ => Raise AttributeError
  end.

Fixpoint chars (s : string) : list json :=
  match s with
  | EmptyString => []
  | String c s' => JStr (String c EmptyString) :: chars s'
  end.

(** [for item in v]: a list gives its elements, a string its characters, a
    dict its keys; anything else raises [TypeError]. *)
Definition py_iter (v : json) : Result (list json) :=
  match v with
  | JList l => Ok l
  | JStr s => Ok (chars s)
  | JObj kv => Ok (map (fun p => JStr (fst p)) kv)
  | JNull | JBool _ | JInt _ | JFloat _ => Raise TypeError
  end.

(** [s.lstrip("/")] and [s.rstrip("/")] *)
Fixpoint lstrip_slash (s : string) : string :=
  match s with
  | String "/"%char s' => lstrip_slash s'
  | _ => s
  end.

Fixpoint rstrip_slash (s : string) : string :=
  match s with
  | EmptyString => EmptyString
  | String c s' =>
      match rstrip_slash s' with
      | EmptyString => if Ascii.eqb c "/"%char then EmptyString else String c EmptyString
      | t => String c t
      end
  end.

(** ** Requests, responses, pages *)

Record Request : Type := mkRequest {
  req_url : string;
  req_limit : Z;                     (* params["limit"] *)
  req_cursor : option json;          (* params["cursor"], when set *)
  req_authorization : option string  (* session.headers["Authorization"] *)
}.

Record Response : Type := mkResponse {
  status_code : Z;
  json_result : Result json;               (* what response.json() does *)
  x_ratelimit_remaining : option string    (* headers.get("X-RateLimit-Remaining") *)
}.

Record APIResponse : Type := mkAPIResponse {
  data : json;
  next_cursor : json;
  total_count : json;
  rate_limit_remaining : Z
}.

(** The page built in the [except] clause of [fetch_page] and of
    [fetch_parallel]. *)
Definition sentinel : APIResponse :=
  mkAPIResponse (JList []) JNull JNull 0.

(** ** State and environment *)

Inductive LogMsg : Type :=
| LogRequestFailed (e : exn)                 (* logger.error, fetch_page *)
| LogReachedMaxPages (max_pages : Z)         (* logger.info, fetch_all *)
| LogFetchedPage (page_count : Z) (n : nat)  (* logger.info, fetch_all *)
| LogRateLimitLow                            (* logger.warning, fetch_all *)
| LogFetchFailed (endpoint : string) (e : exn). (* logger.error, fetch_parallel *)

Inductive Event : Type :=
| EvGet (issued : Q) (recorded : option Q) (req : Request) (out : Result Response)
    (* one call of session.get: when it was issued, the value then stored
       in _last_request_time (none when the call raised), what was asked
       and what came back *)
| EvSleep (d : Q)
| EvLog (m : LogMsg).

Record State : Type := mkState {
  now : Q;                  (* the wall clock *)
  ticks : nat;              (* primitives executed so far *)
  net_calls : nat;          (* calls of session.get so far *)
  last_request_time : Q;    (* self._last_request_time *)
  history : list Event      (* most recent first *)
}.

Record Env : Type := mkEnv {
  transport : nat -> Request -> Result Response;
      (* the outcome of the k-th call of session.get *)
  delay : nat -> Q;
      (* extra time taken by the k-th primitive *)
  py_int : string -> option Z
      (* int(s) on a header string; None is ValueError *)
}.

Record Client : Type := mkClient {
  base_url : string;
  api_key : option string;
  self_max_workers : Z;
  min_interval : Q
}.

(** [PaginatedAPIClient.__init__]; [_last_request_time = 0] is the
    [last_request_time] of [fresh_state]. *)
Definition PaginatedAPIClient_init (base_url : string) (api_key : option string)
    (max_workers : Z) (requests_per_second : Q) : Result Client :=
  if Qeq_bool requests_per_second 0 then Raise ZeroDivisionError
  else Ok (mkClient (rstrip_slash base_url) api_key max_workers
                    (1 / requests_per_second)%Q).

Definition fresh_state (t0 : Q) : State := mkState t0 0 0 0%Q [].

Definition Qltb (x y : Q) : bool := negb (Qle_bool y x).

Definition log (m : LogMsg) (st : State) : State :=
  mkState (now st) (ticks st) (net_calls st) (last_request_time st)
          (EvLog m :: history st).

Section PaginatedAPIClient.

Context (env : Env) (self : Client).

(** *** Primitives: the clock and the session *)

(** [time.time()] *)
Definition time_time (st : State) : Q * State :=
  let t := (now st + delay env (ticks st))%Q in
  (t, mkState t (S (ticks st)) (net_calls st) (last_request_time st) (history st)).

(** [time.sleep(d)] suspends for at least [d]. *)
Definition time_sleep (d : Q) (st : State) : State :=
  mkState (now st + d + delay env (ticks st))%Q (S (ticks st)) (net_calls st)
          (last_request_time st) (EvSleep d :: history st).

(** [self.session.get(url, params=params, timeout=30)] *)
Definition session_get (req : Request) (st : State) : Result Response * State :=
  (transport env (net_calls st) req,
   mkState (now st + delay env (ticks st))%Q (S (ticks st)) (S (net_calls st))
           (last_request_time st) (history st)).

(** [if api_key: session.headers["Authorization"] = f"Bearer {api_key}"] *)
Definition authorization : option string :=
  match api_key self with
  | Some k => if String.eqb k "" then None else Some ("Bearer " ++ k)%string
  | None => None
  end.

(** *** [_rate_limited_get] *)

Definition rate_limited_get (req : Request) (st : State) : Result Response * State :=
  let '(t0, st1) := time_time st in
  let elapsed := (t0 - last_request_time st1)%Q in
  let st2 := if Qltb elapsed (min_interval self)
             then time_sleep (min_interval self - elapsed)%Q st1
             else st1 in
  let issued := now st2 in
  let '(out, st3) := session_get req st2 in
  match out with
  | Ok response =>
      let '(t1, st4) := time_time st3 in
      (Ok response,
       mkState (now st4) (ticks st4) (net_calls st4) t1
               (EvGet issued (Some t1) req out :: history st4))
  | Raise e =>
      (Raise e,
       mkState (now st3) (ticks st3) (net_calls st3) (last_request_time st3)
               (EvGet issued None req out :: history st3))
  end.

(** *** [fetch_page] *)

(** [response.raise_for_status()] *)
Definition raise_for_status (response : Response) : Result unit :=
  if (400 <=? status_code response) && (status_code response <? 600)
  then Raise (HTTPError (status_code response))
  else Ok tt.

(** [a or b]; [b] is only looked at when [a] is falsy. *)
Definition py_or (a : json) (b : Result json) : Result json :=
  if truthy a then Ok a else b.

(** [int(response.headers.get("X-RateLimit-Remaining", 999))] *)
Definition header_remaining (response : Response) : Result Z :=
  match x_ratelimit_remaining response with
  | None => Ok 999
  | Some s =>
      match py_int env s with
      | Some z => Ok z
      | None => Raise ValueError
      end
  end.

(** The body of the [try] block after the request has returned. *)
Definition page_of_response (response : Response) : Result APIResponse :=
  _ ← raise_for_status response;
  body ← json_result response;
  d ← py_get body "data" (JList []);
  c ← py_get body "next_cursor" JNull;
  nc ← py_or c (p ← py_get body "pagination" (JObj []); py_get p "next" JNull);
  t ← py_get body "total_count" JNull;
  tc ← py_or t (p ← py_get body "pagination" (JObj []); py_get p "total" JNull);
  rl ← header_remaining response;
  mret (mkAPIResponse d nc tc rl).

(** What [fetch_page] makes of the outcome of its one request: the [try]
    block, then the [except RequestException] clause. *)
Definition page_of_outcome (out : Result Response) : Result APIResponse :=
  match out ≫= page_of_response with
  | Ok page => Ok page
  | Raise e => if is_RequestException e then Ok sentinel else Raise e
  end.

Definition request_for (endpoint : string) (cursor : json) (page_size : Z) : Request :=
  mkRequest (base_url self ++ "/" ++ lstrip_slash endpoint)%string page_size
            (if truthy cursor then Some cursor else None) authorization.

Definition fetch_page (endpoint : string) (cursor : json) (page_size : Z)
    (st : State) : Result APIResponse * State :=
  let '(out, st1) := rate_limited_get (request_for endpoint cursor page_size) st in
  match out ≫= page_of_response with
  | Ok page => (Ok page, st1)
  | Raise e =>
      if is_RequestException e
      then (Ok sentinel, log (LogRequestFailed e) st1)
      else (Raise e, st1)
  end.

(** *** [fetch_all] *)

(** How the loop of [fetch_all] stands after the iterations it was given. *)
Inductive Exit : Type :=
| BreakMaxPages   (* the break under "if max_pages and page_count >= max_pages" *)
| BreakLastPage   (* the break under "if not cursor or not result.data" *)
| Raised (e : exn)(* an exception left the generator *)
| StillRunning.   (* the loop has not ended within the given iterations *)

(** [max_pages and page_count >= max_pages] *)
Definition max_pages_reached (max_pages : option Z) (page_count : Z) : bool :=
  match max_pages with
  | None => false
  | Some n => negb (n =? 0) && (n <=? page_count)
  end.

Section FetchAll.

Context (endpoint : string) (page_size : Z) (max_pages : option Z).

Fixpoint fetch_all_loop (fuel : nat) (cursor : json) (page_count : Z) (st : State)
    : list json * Exit * State :=
  match fuel with
  | O => ([], StillRunning, st)
  | S fuel' =>
      if max_pages_reached max_pages page_count
      then ([], BreakMaxPages, log (LogReachedMaxPages (default 0 max_pages)) st)
      else
        let '(r, st1) := fetch_page endpoint cursor page_size st in
        match r with
        | Raise e => ([], Raised e, st1)
        | Ok result =>
            match py_iter (data result) with
            | Raise e => ([], Raised e, st1)
            | Ok items =>
                let page_count' := page_count + 1 in
                let st2 := log (LogFetchedPage page_count' (length items)) st1 in
                let cursor' := next_cursor result in
                if negb (truthy cursor') || negb (truthy (data result))
                then (items, BreakLastPage, st2)
                else
                  let st3 := if rate_limit_remaining result <? 5
                             then time_sleep 5 (log LogRateLimitLow st2)
                             else st2 in
                  let '(rest, ex, st') := fetch_all_loop fuel' cursor' page_count' st3 in
                  (items ++ rest, ex, st')
            end
        end
  end.

(** The items yielded by the generator when it is consumed for at most
    [fuel] iterations of its loop, how the loop ended, and the state left. *)
Definition fetch_all (fuel : nat) (st : State) : list json * Exit * State :=
  fetch_all_loop fuel JNull 0 st.

End FetchAll.

(** *** [fetch_parallel] *)

(** [max_workers or self.max_workers] *)
Definition workers (max_workers : option Z) : Z :=
  match max_workers with
  | Some w => if w =? 0 then self_max_workers self else w
  | None => self_max_workers self
  end.

(** The calls [fetch_page(ep)] of the pool, run and completed in the order
    [order]; each completion is followed by the body of the
    [for future in as_completed(futures)] loop. *)
Fixpoint fetch_parallel_run (order : list string) (results : gmap string APIResponse)
    (st : State) : gmap string APIResponse * State :=
  match order with
  | [] => (results, st)
  | endpoint :: order' =>
      let '(r, st1) := fetch_page endpoint JNull 100 st in
      match r with
      | Ok page => fetch_parallel_run order' (<[endpoint := page]> results) st1
      | Raise e =>
          fetch_parallel_run order' (<[endpoint := sentinel]> results)
                             (log (LogFetchFailed endpoint e) st1)
      end
  end.

(** [ThreadPoolExecutor(max_workers=workers)] raises [ValueError] unless
    [workers > 0]. *)
Definition fetch_parallel (order : list string) (max_workers : option Z)
    (st : State) : Result (gmap string APIResponse) * State :=
  if workers max_workers <=? 0 then (Raise ValueError, st)
  else
    let '(results, st') := fetch_parallel_run order ∅ st in
    (Ok results, st').

(** [fetch_parallel(endpoints, max_workers)] may return [res]: some order
    of completion of the submitted calls produces it. *)
Definition fetch_parallel_returns (endpoints : list string) (max_workers : option Z)
    (st : State) (res : Result (gmap string APIResponse)) (st' : State) : Prop :=
  ∃ order, order ≡ₚ endpoints ∧ fetch_parallel order max_workers st = (res, st').

End PaginatedAPIClient.

(** ** Properties of runs, as the specification words them *)

Section Walk.

Context (env : Env) (self : Client) (endpoint : string) (page_size : Z).

(** The page fetcher returns [pages], one after the other, to the walker
    that starts with network call [k] and cursor [cursor]: each request
    carries the cursor of the page before. *)
Fixpoint pages_served (k : nat) (cursor : json) (pages : list APIResponse) : Prop :=
  match pages with
  | [] => True
  | p :: rest =>
      page_of_outcome env (transport env k (request_for self endpoint cursor page_size)) = Ok p
      ∧ pages_served (S k) (next_cursor p) rest
  end.

End Walk.

(** A page before the last: a non-empty item list and a cursor. *)
Definition inner_page (p : APIResponse) : Prop :=
  (∃ x l, data p = JList (x :: l)) ∧ truthy (next_cursor p) = true.

(** A last page: an item list, and no cursor or no item. *)
Definition last_page (p : APIResponse) : Prop :=
  (∃ l, data p = JList l) ∧ (truthy (next_cursor p) = false ∨ data p = JList []).

Definition items_of (p : APIResponse) : list json :=
  match data p with
  | JList l => l
  | _ => []
  end.

(** Every page the fetcher can return has items and a cursor: more pages
    always exist. *)
Definition always_more (env : Env) : Prop :=
  ∀ k req, ∃ p, page_of_outcome env (transport env k req) = Ok p ∧ inner_page p.

(** The parts of a run of [fetch_all]. *)
Definition yielded (r : list json * Exit * State) : list json := r.1.1.
Definition exit_of (r : list json * Exit * State) : Exit := r.1.2.
Definition final (r : list json * Exit * State) : State := r.2.

(** The fetch attempts made between two states. *)
Definition fetches (st st' : State) : Z :=
  Z.of_nat (net_calls st') - Z.of_nat (net_calls st).

(** How the loop of [fetch_all], entered with [page_count] pages counted,
    can stand after [fuel] iterations, and what each case tells. *)
Definition exit_explained (env : Env) (self : Client) (endpoint : string)
    (page_size : Z) (max_pages : option Z) (page_count : Z) (fuel : nat)
    (st : State) (r : list json * Exit * State) : Prop :=
  match exit_of r with
  | BreakMaxPages =>
      ∃ n, max_pages = Some n ∧ n ≠ 0 ∧ n ≤ page_count + fetches st (final r)
  | BreakLastPage =>
      ∃ k cursor p,
        S k = net_calls (final r)
        ∧ page_of_outcome env (transport env k (request_for self endpoint cursor page_size))
          = Ok p
        ∧ (truthy (next_cursor p) = false ∨ truthy (data p) = false)
  | Raised e => is_RequestException e = false
  | StillRunning => fetches st (final r) = Z.of_nat fuel
  end.

(** ** A three-page stream *)

Definition page_body (items : list json) (cursor : json) : json :=
  JObj [("data", JList items); ("next_cursor", cursor)].

Definition ok_response (body : json) (remaining : option string) : Result Response :=
  Ok (mkResponse 200 (Ok body) remaining).

(** A server with pages [a, b], [c] and [], reached by no cursor, "p2" and
    "p3". *)
Definition three_pages (k : nat) (req : Request) : Result Response :=
  match req_cursor req with
  | None => ok_response (page_body [JStr "a"; JStr "b"] (JStr "p2")) None
  | Some (JStr "p2") => ok_response (page_body [JStr "c"] (JStr "p3")) None
  | Some (JStr "p3") => ok_response (page_body [] JNull) None
  | Some _ => Ok (mkResponse 404 (Raise JSONDecodeError) None)
  end.

(** [int] on a header made of ASCII digits only, the one kind of header the
    examples use; any other string is taken to raise [ValueError]. *)
Fixpoint digits_value (s : string) (acc : Z) : option Z :=
  match s with
  | EmptyString => Some acc
  | String c s' =>
      let n := Z.of_N (N_of_ascii c) in
      if (48 <=? n) && (n <=? 57) then digits_value s' (10 * acc + (n - 48)) else None
  end.

Definition digits_int (s : string) : option Z :=
  match s with
  | EmptyString => None
  | _ => digits_value s 0
  end.

Definition millisecond : Q := (1 # 1000)%Q.

(** A time in whole milliseconds, for display. *)
Definition in_ms (t : Q) : Z := Qfloor (t * 1000).

Definition three_pages_env : Env := mkEnv three_pages (fun _ => millisecond) digits_int.

Definition demo_client : Client :=
  mkClient "https://api.example.org" None 5 (1 / 10)%Q.

Definition page1 : APIResponse := mkAPIResponse (JList [JStr "a"; JStr "b"]) (JStr "p2") JNull 999.
Definition page2 : APIResponse := mkAPIResponse (JList [JStr "c"]) (JStr "p3") JNull 999.
Definition page3 : APIResponse := mkAPIResponse (JList []) JNull JNull 999.

(** ** A stream that never ends *)

(** Every request is answered with one item and a cursor. *)
Definition endless (k : nat) (req : Request) : Result Response :=
  ok_response (page_body [JInt (Z.of_nat k)] (JStr "more")) None.

Definition endless_env : Env := mkEnv endless (fun _ => millisecond) digits_int.

(** ** Failing fetches *)

(** The failures the specification calls transient: a timeout, a 5xx
    status, a rate-limit (429) status. *)
Definition transient_failure (e : exn) : bool :=
  match e with
  | Timeout => true
  | HTTPError s => (500 <=? s) && (s <? 600) || (s =? 429)
  | _ => false
  end.

(** A second network attempt was made between two states. *)
Definition retried (st st' : State) : Prop := 1 < fetches st st'.

(** A 200 response whose body is a JSON array, not an object. *)
Definition array_body (k : nat) (req : Request) : Result Response :=
  ok_response (JList [JStr "a"; JStr "b"]) None.

Definition array_body_env : Env := mkEnv array_body (fun _ => millisecond) digits_int.

(** A 503 on the first network call, a good page on every later one. *)
Definition flaky (k : nat) (req : Request) : Result Response :=
  match k with
  | O => Ok (mkResponse 503 (Raise JSONDecodeError) None)
  | S _ => ok_response (page_body [JStr "a"] JNull) None
  end.

Definition flaky_env : Env := mkEnv flaky (fun _ => millisecond) digits_int.

(** ** Timing *)

(** The calls of [session.get] in a history, most recent first: when each
    was issued, the time recorded for it in [_last_request_time] (none when
    the call raised) and its outcome. *)
Fixpoint requests (h : list Event) : list (Q * option Q * Result Response) :=
  match h with
  | [] => []
  | EvGet issued recorded _ out :: h' => (issued, recorded, out) :: requests h'
  | _ :: h' => requests h'
  end.

(** Any two consecutive requests were issued at least [gap] apart. *)
Fixpoint spaced (gap : Q) (rs : list (Q * option Q * Result Response)) : Prop :=
  match rs with
  | (issued2, _, _) :: rest =>
      match rest with
      | (issued1, _, _) :: _ => (issued1 + gap <= issued2)%Q
      | [] => True
      end ∧ spaced gap rest
  | [] => True
  end.

(** A run of successive requests through the gate. *)
Fixpoint gate_run (env : Env) (self : Client) (reqs : list Request) (st : State) : State :=
  match reqs with
  | [] => st
  | req :: reqs' => gate_run env self reqs' (rate_limited_get env self req st).2
  end.

(** The page made of this outcome reports a remaining budget below 5. *)
Definition low_quota (env : Env) (out : Result Response) : bool :=
  match page_of_outcome env out with
  | Ok p => rate_limit_remaining p <? 5
  | Raise _ => false
  end.

(** Whenever a request came back with a low remaining budget, the next
    request was issued at least [wait] after the time recorded for it. *)
Fixpoint cooldown_respected (env : Env) (wait : Q)
    (rs : list (Q * option Q * Result Response)) : Prop :=
  match rs with
  | (issued2, _, _) :: rest =>
      match rest with
      | (_, Some recorded1, out1) :: _ =>
          low_quota env out1 = true → (recorded1 + wait <= issued2)%Q
      | _ => True
      end ∧ cooldown_respected env wait rest
  | [] => True
  end.

(** The requests so far are [min_interval] apart and the last of them was
    issued before the recorded time. *)
Definition gate_inv (self : Client) (st : State) : Prop :=
  spaced (min_interval self) (requests (history st))
  ∧ match requests (history st) with
    | (issued, _, _) :: _ => (issued <= last_request_time st)%Q
    | [] => True
    end.

(** At the head of the loop of [fetch_all]: the cooldowns so far were
    respected, the recorded time of the last answered request is not ahead
    of the gate, and a cooldown owed for it has been served. *)
Definition cool_inv (env : Env) (self : Client) (st : State) : Prop :=
  cooldown_respected env (Qmax 5 (min_interval self)) (requests (history st))
  ∧ match requests (history st) with
    | (_, Some t, out) :: _ =>
        (t <= last_request_time st)%Q
        ∧ (low_quota env out = true → (t + 5 <= now st)%Q)
    | _ => True
    end.

(** No primitive takes less time than it was asked to take. *)
Definition delays_nonneg (env : Env) : Prop := ∀ k, (0 <= delay env k)%Q.

(** Every network call is answered with a response. *)
Definition always_answered (env : Env) : Prop :=
  ∀ k req, ∃ response, transport env k req = Ok response.

(** One request per second. *)
Definition slow_client : Client := mkClient "https://api.example.org" None 5 (1 / 1)%Q.

(** The second network call fails to connect; the others are answered. *)
Definition dropped (k : nat) (req : Request) : Result Response :=
  match k with
  | 1%nat => Raise ConnectionError
  | _ => ok_response (page_body [JStr "a"] JNull) None
  end.

Definition dropped_env : Env := mkEnv dropped (fun _ => millisecond) digits_int.

Definition items_request : Request := request_for slow_client "/items" JNull 100.

(** A first page that reports 3 remaining requests, then a last page. *)
Definition low_budget (k : nat) (req : Request) : Result Response :=
  match req_cursor req with
  | None => ok_response (page_body [JStr "a"; JStr "b"] (JStr "p2")) (Some "3")
  | Some _ => ok_response (page_body [JStr "c"] JNull) (Some "50")
  end.

Definition low_budget_env : Env := mkEnv low_budget (fun _ => millisecond) digits_int.

(** ** Cancellation *)

(** What honouring a cancellation signal raised during iteration
    [cancelled_in] (counted from 0) would mean for the fetch attempts made
    between two states: the request in flight may complete, no other
    request follows. *)
Definition cancellation_honoured (cancelled_in : nat) (st st' : State) : Prop :=
  fetches st st' ≤ Z.of_nat cancelled_in + 1.

(** ** Fan-out *)

(** What the loop over completed futures stores for a call of
    [fetch_page]. *)
Definition stored_page (r : Result APIResponse) : APIResponse :=
  match r with
  | Ok page => page
  | Raise _ => sentinel
  end.

(** The answer to a request does not depend on when it is made. *)
Definition stateless (env : Env) : Prop :=
  ∀ k k' req, transport env k req = transport env k' req.

(** The fetch of [endpoint] fails every time. *)
Definition always_fails (env : Env) (self : Client) (endpoint : string) : Prop :=
  ∀ k, ∃ e, (transport env k (request_for self endpoint JNull 100)
               ≫= page_of_response env) = Raise e.

(** The fetch of [endpoint] gives [page] every time. *)
Definition always_gives (env : Env) (self : Client) (endpoint : string)
    (page : APIResponse) : Prop :=
  ∀ k, (transport env k (request_for self endpoint JNull 100)
          ≫= page_of_response env) = Ok page.

(** A server with two good endpoints and one whose body is a JSON array. *)
Definition catalogue (k : nat) (req : Request) : Result Response :=
  if String.eqb (req_url req) "https://api.example.org/users"
  then ok_response (page_body [JStr "ada"; JStr "alan"] JNull) None
  else if String.eqb (req_url req) "https://api.example.org/orders"
  then ok_response (page_body [JInt 17] (JStr "o2")) (Some "50")
  else if String.eqb (req_url req) "https://api.example.org/broken"
  then ok_response (JList [JStr "oops"]) None
  else Ok (mkResponse 404 (Raise JSONDecodeError) None).

Definition catalogue_env : Env := mkEnv catalogue (fun _ => millisecond) digits_int.

Definition users_page : APIResponse :=
  mkAPIResponse (JList [JStr "ada"; JStr "alan"]) JNull JNull 999.

Definition orders_page : APIResponse :=
  mkAPIResponse (JList [JInt 17]) (JStr "o2") JNull 50.

(** ** Further properties of the client *)

Section WalkThen.

Context (env : Env) (self : Client) (endpoint : string) (page_size : Z).

(** The page fetcher returns [pages] to the walker that starts with network
    call [k] and cursor [cursor], and [after] holds of the network call
    and of the cursor that come next. *)
Fixpoint served_then (k : nat) (cursor : json) (pages : list APIResponse)
    (after : nat → json → Prop) : Prop :=
  match pages with
  | [] => after k cursor
  | p :: rest =>
      page_of_outcome env (transport env k (request_for self endpoint cursor page_size)) = Ok p
      ∧ served_then (S k) (next_cursor p) rest after
  end.

(** What the [try] block of [fetch_page] does with network call [k] made
    with cursor [cursor]. *)
Definition attempt (k : nat) (cursor : json) : Result APIResponse :=
  transport env k (request_for self endpoint cursor page_size) ≫= page_of_response env.

End WalkThen.

(** The calls of [session.get] in a history, most recent first, with what
    was asked and what came back. *)
Fixpoint exchanges (h : list Event) : list (Request * Result Response) :=
  match h with
  | [] => []
  | EvGet _ _ req out :: h' => (req, out) :: exchanges h'
  | _ :: h' => exchanges h'
  end.

(** The durations of the calls of [time.sleep] in a history. *)
Fixpoint sleeps (h : list Event) : list Q :=
  match h with
  | [] => []
  | EvSleep d :: h' => d :: sleeps h'
  | _ :: h' => sleeps h'
  end.

(** Every request but the first carries the cursor of the page made of the
    answer to the request before it; the first carries none. *)
Fixpoint chained (env : Env) (xs : list (Request * Result Response)) : Prop :=
  match xs with
  | [] => True
  | (req2, _) :: rest =>
      match rest with
      | [] => req_cursor req2 = None
      | (_, out1) :: _ =>
          ∃ p, page_of_outcome env out1 = Ok p ∧ req_cursor req2 = Some (next_cursor p)
      end ∧ chained env rest
  end.

(** [s] does not end with a slash. *)
Fixpoint no_trailing_slash (s : string) : Prop :=
  match s with
  | EmptyString => True
  | String c EmptyString => c ≠ "/"%char
  | String _ s' => no_trailing_slash s'
  end.

(** [s] does not start with a slash. *)
Definition no_leading_slash (s : string) : Prop :=
  match s with
  | String c _ => c ≠ "/"%char
  | EmptyString => True
  end.

(** A response that [fetch_page] can turn into a page: no error status, a
    JSON object whose [pagination], when present, is an object, and a
    remaining-budget header, when present, that [int] accepts. *)
Definition well_formed (env : Env) (response : Response) (kv : list (string * json)) : Prop :=
  (status_code response < 400 ∨ 600 ≤ status_code response)
  ∧ json_result response = Ok (JObj kv)
  ∧ match assoc "pagination" kv with
    | None | Some (JObj _) => True
    | Some _ => False
    end
  ∧ match x_ratelimit_remaining response with
    | None => True
    | Some s => is_Some (py_int env s)
    end.

(** [body.get(k) or body.get("pagination", {}).get(k')] on an object whose
    [pagination] is absent or an object. *)
Definition get_or_pagination (kv : list (string * json)) (k k' : string) : json :=
  let v := default JNull (assoc k kv) in
  if truthy v then v
  else match assoc "pagination" kv with
       | Some (JObj pkv) => default JNull (assoc k' pkv)
       | _ => JNull
       end.

(** The decoded body has the shape [fetch_page] relies on: an object whose
    [pagination], when present, is an object. *)
Definition object_shaped (body : json) : Prop :=
  match body with
  | JObj kv =>
      match assoc "pagination" kv with
      | None | Some (JObj _) => True
      | Some _ => False
      end
  | _ => False
  end.

(** A first page with a cursor, then a 503 on every request that carries a
    cursor. *)
Definition outage (k : nat) (req : Request) : Result Response :=
  match req_cursor req with
  | None => ok_response (page_body [JStr "a"; JStr "b"] (JStr "p2")) None
  | Some _ => Ok (mkResponse 503 (Raise JSONDecodeError) None)
  end.

Definition outage_env : Env := mkEnv outage (fun _ => millisecond) digits_int.

(** A first page with a cursor, then a body that is a JSON array. *)
Definition garbled (k : nat) (req : Request) : Result Response :=
  match req_cursor req with
  | None => ok_response (page_body [JStr "a"; JStr "b"] (JStr "p2")) None
  | Some _ => ok_response (JList [JStr "c"]) None
  end.

Definition garbled_env : Env := mkEnv garbled (fun _ => millisecond) digits_int.

(** A first page with a cursor, then a page whose [data] is [null]. *)
Definition null_data (k : nat) (req : Request) : Result Response :=
  match req_cursor req with
  | None => ok_response (page_body [JStr "a"; JStr "b"] (JStr "p2")) None
  | Some _ => ok_response (JObj [("data", JNull); ("next_cursor", JStr "p3")]) None
  end.

Definition null_data_env : Env := mkEnv null_data (fun _ => millisecond) digits_int.

(** The issue time of the oldest request of a list given most recent
    first, [t] when there is none. *)
Fixpoint oldest_issue (t : Q) (rs : list (Q * option Q * Result Response)) : Q :=
  match rs with
  | [] => t
  | (issued, _, _) :: rest => oldest_issue issued rest
  end.

(** The issue time of the most recent request, [t] when there is none. *)
Definition newest_issue (t : Q) (rs : list (Q * option Q * Result Response)) : Q :=
  match rs with
  | [] => t
  | (issued, _, _) :: _ => issued
  end.

(** At the head of the loop of [fetch_all] with cursor [cursor]: the
    requests so far are chained and go to the endpoint, and [cursor] is the
    cursor of the page made of the last answer, none before the first
    request. *)
Definition chain_inv (env : Env) (self : Client) (endpoint : string) (page_size : Z)
    (cursor : json) (st : State) : Prop :=
  let xs := exchanges (history st) in
  chained env xs
  ∧ Forall (λ x, ∃ c, x.1 = request_for self endpoint c page_size) xs
  ∧ match xs with
    | [] => truthy cursor = false
    | (_, out) :: _ =>
        ∃ p, page_of_outcome env out = Ok p ∧ cursor = next_cursor p
             ∧ truthy cursor = true
    end.

(** * Batch validation: [src/etl/validation-schema.py]

    [ValidationResult] and [validate_batch]. The schema class is the
    [model_class] argument of [validate_batch]: what constructing it from a
    record does is a parameter. [success_rate] is a quotient of two list
    lengths, a float in the source and the exact quotient here; the tests
    against 0.95 and 0.80 give the same answer on both for any batch of
    fewer than 10^14 records. *)

Module ValidationSchema.

Inductive DataQuality : Type := HIGH | MEDIUM | LOW.

(** [DataQuality.value] *)
Definition value (q : DataQuality) : string :=
  match q with
  | HIGH => "high"
  | MEDIUM => "medium"
  | LOW => "low"
  end.

Section Batch.

Context {record validated : Type}.

(** What constructing the model from the fields of a record does: it
    returns a validated object, raises [ValidationError] with the messages
    of [e.errors()], or raises something else. *)
Inductive Construction : Type :=
| Validated (v : validated)
| ValidationError (msgs : list string)
| OtherError (e : exn).

Record ValidationResult : Type := mkValidationResult {
  valid : list validated;
  invalid : list (record * string)   (* (record, error_message) *)
}.

Definition success_rate (self : ValidationResult) : Q :=
  let total := (length (valid self) + length (invalid self))%nat in
  if (0 <? total)%nat
  then (inject_Z (Z.of_nat (length (valid self))) / inject_Z (Z.of_nat total))%Q
  else 0%Q.

Definition quality_score (self : ValidationResult) : DataQuality :=
  let rate := success_rate self in
  if Qle_bool 0.95 rate then HIGH
  else if Qle_bool 0.80 rate then MEDIUM
  else LOW.

Context (model_class : record → Construction).

(** The loop of [validate_batch], with the result built so far. *)
Fixpoint validate_loop (records : list record) (result : ValidationResult)
    : Result ValidationResult :=
  match records with
  | [] => Ok result
  | record :: records' =>
      match model_class record with
      | Validated v =>
          validate_loop records'
            (mkValidationResult (valid result ++ [v]) (invalid result))
      | ValidationError msgs =>
          let error_msg := match msgs with
                           | msg :: _ => msg
                           | [] => "Unknown error"
                           end in
          validate_loop records'
            (mkValidationResult (valid result) (invalid result ++ [(record, error_msg)]))
      | OtherError e => Raise e
      end
  end.

Definition validate_batch (records : list record) : Result ValidationResult :=
  validate_loop records (mkValidationResult [] []).

(** The validated object of a record that validates. *)
Definition accepted (r : record) : option validated :=
  match model_class r with
  | Validated v => Some v
  | _ => None
  end.

(** A record that fails validation, with the message kept for it. *)
Definition rejected (r : record) : option (record * string) :=
  match model_class r with
  | ValidationError (msg :: _) => Some (r, msg)
  | ValidationError [] => Some (r, "Unknown error")
  | _ => None
  end.

(** Constructing the model from [r] raises nothing but
    [ValidationError]. *)
Definition validates_or_fails (r : record) : Prop :=
  match model_class r with
  | OtherError _ => False
  | _ => True
  end.

End Batch.

(** A schema for the examples: a record is a name and a price; the name
    must not be empty and the price must be positive. *)
Definition toy_model (r : string * Z) : @Construction (string * Z) :=
  if String.eqb r.1 "" then ValidationError ["Name cannot be empty or whitespace"]
  else if r.2 <=? 0 then ValidationError []
  else Validated r.

(** The same schema, raising [TypeError] on a price of 0. *)
Definition strict_model (r : string * Z) : @Construction (string * Z) :=
  if r.2 =? 0 then OtherError TypeError else toy_model r.

End ValidationSchema.

(** * The HTTP scraper: [src/scrapers/basic-http.py]

    [BasicScraper.fetch] and [fetch_multiple]. The session, with the retry
    adapter that [__init__] mounts on it, is the [session_get] of the
    environment: what a call of [session.get] finally returns or raises.
    [random.choice] is an oracle too. *)

Module BasicScraper.

Definition USER_AGENTS : list string :=
  [ "Mozilla/5.0 (Macintosh; Intel Mac OS X 10_15_7) AppleWebKit/537.36";
    "Mozilla/5.0 (Windows NT 10.0; Win64; x64) AppleWebKit/537.36" ].

Record HttpResponse : Type := mkHttpResponse {
  text : string;
  headers : list (string * string);
  status_code : Z
}.

Record ScrapedItem : Type := mkScrapedItem {
  url : string;
  content : string;                       (* data["content"] *)
  data_headers : list (string * string);  (* data["headers"] *)
  timestamp : Q;
  item_status_code : Z
}.

Inductive Event : Type :=
| EvInfo (url : string)                 (* logger.info(f"Fetching: {url}") *)
| EvGet (url : string) (user_agent : string)
| EvSleep (d : Q)
| EvError (url : string) (e : exn).     (* logger.error(f"Failed to fetch ...") *)

Record World : Type := mkWorld {
  clock : Q;
  steps : nat;          (* primitives executed so far *)
  gets : nat;           (* calls of session.get so far *)
  choices : nat;        (* calls of random.choice so far *)
  trace : list Event    (* most recent first *)
}.

Record Env : Type := mkEnv {
  session_get : nat → string → string → Result HttpResponse;
      (* the outcome of the k-th call, for a URL and a User-Agent *)
  delay : nat → Q;
  choice : nat → nat    (* the index drawn by the k-th random.choice *)
}.

Record Scraper : Type := mkScraper {
  base_url : string;
  rate_limit_delay : Q
}.

Section Scraper.

Context (env : Env) (self : Scraper).

(** The User-Agent of [_get_headers]: [random.choice(USER_AGENTS)]. *)
Definition get_user_agent (w : World) : string * World :=
  (nth (choice env (choices w) mod length USER_AGENTS) USER_AGENTS "",
   mkWorld (clock w) (steps w) (gets w) (S (choices w)) (trace w)).

Definition emit (e : Event) (w : World) : World :=
  mkWorld (clock w) (steps w) (gets w) (choices w) (e :: trace w).

(** [time.sleep(d)]: [ValueError] when [d] is negative. *)
Definition sleep (d : Q) (w : World) : Result unit * World :=
  if Qltb d 0 then (Raise ValueError, w)
  else (Ok tt,
        mkWorld (clock w + d + delay env (steps w))%Q (S (steps w)) (gets w) (choices w)
                (EvSleep d :: trace w)).

(** [time.time()] *)
Definition time (w : World) : Q * World :=
  let t := (clock w + delay env (steps w))%Q in
  (t, mkWorld t (S (steps w)) (gets w) (choices w) (trace w)).

Definition get (u : string) (w : World) : Result HttpResponse * World :=
  let '(ua, w1) := get_user_agent w in
  (session_get env (gets w1) u ua,
   mkWorld (clock w1 + delay env (steps w1))%Q (S (steps w1)) (S (gets w1)) (choices w1)
           (EvGet u ua :: trace w1)).

(** [response.raise_for_status()] *)
Definition raise_for_status (response : HttpResponse) : Result unit :=
  if (400 <=? status_code response) && (status_code response <? 600)
  then Raise (HTTPError (status_code response))
  else Ok tt.

Definition url_of (path : string) : string :=
  (base_url self ++ "/" ++ lstrip_slash path)%string.

(** The [except RequestException] clause of [fetch]. *)
Definition except_request (u : string) (e : exn) (w : World)
    : Result (option ScrapedItem) * World :=
  if is_RequestException e then (Ok None, emit (EvError u e) w) else (Raise e, w).

Definition fetch (path : string) (w : World) : Result (option ScrapedItem) * World :=
  let u := url_of path in
  let w0 := emit (EvInfo u) w in
  let '(out, w1) := get u w0 in
  match out with
  | Raise e => except_request u e w1
  | Ok response =>
      match raise_for_status response with
      | Raise e => except_request u e w1
      | Ok _ =>
          let '(slept, w2) := sleep (rate_limit_delay self) w1 in
          match slept with
          | Raise e => except_request u e w2
          | Ok _ =>
              let '(t, w3) := time w2 in
              (Ok (Some (mkScrapedItem u (text response) (headers response) t
                           (status_code response))), w3)
          end
      end
  end.

Fixpoint fetch_multiple_loop (paths : list string) (results : list ScrapedItem)
    (w : World) : Result (list ScrapedItem) * World :=
  match paths with
  | [] => (Ok results, w)
  | path :: paths' =>
      let '(r, w1) := fetch path w in
      match r with
      | Raise e => (Raise e, w1)
      | Ok (Some item) => fetch_multiple_loop paths' (results ++ [item]) w1
      | Ok None => fetch_multiple_loop paths' results w1
      end
  end.

Definition fetch_multiple (paths : list string) (w : World)
    : Result (list ScrapedItem) * World :=
  fetch_multiple_loop paths [] w.

End Scraper.

(** The durations of the sleeps of a trace. *)
Fixpoint slept (tr : list Event) : list Q :=
  match tr with
  | [] => []
  | EvSleep d :: tr' => d :: slept tr'
  | _ :: tr' => slept tr'
  end.

(** The answer to a request is a response without error status. *)
Definition answered_ok (out : Result HttpResponse) : bool :=
  match out with
  | Ok response => negb ((400 <=? status_code response) && (status_code response <? 600))
  | Raise _ => false
  end.

(** [session.get] raises nothing but [RequestException]s. *)
Definition raises_request_only (env : Env) : Prop :=
  ∀ k u ua e, session_get env k u ua = Raise e → is_RequestException e = true.

(** Whether a request is answered without error depends on its URL
    only. *)
Definition decided_by_url (env : Env) (good : string → bool) : Prop :=
  ∀ k u ua, answered_ok (session_get env k u ua) = good u.

(** A site for the examples: [/json] and [/html] are served, the rest is
    not found. *)
Definition site (k : nat) (u ua : string) : Result HttpResponse :=
  if String.eqb u "https://httpbin.org/json"
  then Ok (mkHttpResponse "{}" [("Content-Type", "application/json")] 200)
  else if String.eqb u "https://httpbin.org/html"
  then Ok (mkHttpResponse "<html></html>" [] 200)
  else Ok (mkHttpResponse "" [] 404).

Definition site_env : Env := mkEnv site (fun _ => (1 # 1000)%Q) (fun k => k).

Definition site_good (u : string) : bool :=
  String.eqb u "https://httpbin.org/json" || String.eqb u "https://httpbin.org/html".

Definition httpbin : Scraper := mkScraper "https://httpbin.org" 1.

Definition start : World := mkWorld 1000 0 0 0 [].

End BasicScraper.

(** A scraper with a negative delay. *)
Definition hasty : BasicScraper.Scraper := BasicScraper.mkScraper "https://httpbin.org" (-1).

(** * The browser scraper: [src/scrapers/dynamic-browser.py]

    [DynamicScraper._setup_page] and [scrape]. Playwright is the
    environment: what each call on the browser, the context and the page
    returns or raises. *)

Module DynamicScraper.

Record BrowserResult : Type := mkBrowserResult {
  url : string;
  content : string;
  title : string;
  screenshot_path : option string;
  metrics_status : option Z;   (* metrics["status"] *)
  metrics_load_time : Q        (* metrics["load_time"] *)
}.

Inductive Event : Type :=
| EvNewContext
| EvNewPage
| EvInitScript
| EvSetTimeout
| EvSetNavigationTimeout
| EvInfo (url : string)          (* logger.info(f"Navigating to: {url}") *)
| EvGoto (url : string)
| EvWaitForSelector (selector : string)
| EvEvaluate
| EvScreenshot (path : string)
| EvContent
| EvTitle
| EvError (url : string) (e : exn)  (* logger.error(f"Failed to scrape ...") *)
| EvClose.                       (* context.close() *)

Record Env : Type := mkEnv {
  new_context : Result unit;
  new_page : Result unit;
  add_init_script : Result unit;
  set_default_timeout : Result unit;
  set_default_navigation_timeout : Result unit;
  goto : string → Result (option Z);   (* the status of the response, if any *)
  wait_for_selector : string → Result unit;
  evaluate : Result Q;                 (* performance.now() *)
  screenshot : string → Result unit;
  page_content : Result string;
  page_title : Result string;
  close : Result unit;
  py_hash : string → Z;                (* hash(url) *)
  str : Z → string                     (* the decimal writing of an int *)
}.

Record Scraper : Type := mkScraper {
  headless : bool;
  stealth : bool;
  entered : bool   (* __enter__ has set self._browser *)
}.

(** A computation on the trace that may raise. *)
Definition M (A : Type) : Type := list Event → Result A * list Event.

Definition call {A} (ev : Event) (out : Result A) : M A :=
  fun tr => (out, ev :: tr).

Definition bind {A B} (m : M A) (k : A → M B) : M B :=
  fun tr =>
    match m tr with
    | (Ok a, tr') => k a tr'
    | (Raise e, tr') => (Raise e, tr')
    end.

Definition ret {A} (a : A) : M A := fun tr => (Ok a, tr).

Notation "x ←' m ; k" := (bind m (fun x => k))
  (at level 20, m at level 100, k at level 200, only parsing).

Section Scraper.

Context (env : Env) (self : Scraper).

Definition setup_page : M unit :=
  _ ←' call EvNewPage (new_page env);
  _ ←' (if stealth self then call EvInitScript (add_init_script env) else ret tt);
  _ ←' call EvSetTimeout (set_default_timeout env);
  call EvSetNavigationTimeout (set_default_navigation_timeout env).

(** The body of the [try] block of [scrape]. *)
Definition try_scrape (u : string) (wait_for : option string) (shot : bool)
    : M BrowserResult :=
  _ ←' (fun tr => (Ok tt, EvInfo u :: tr));
  response ←' call (EvGoto u) (goto env u);
  _ ←' match wait_for with
       | Some selector =>
           if String.eqb selector "" then ret tt
           else call (EvWaitForSelector selector) (wait_for_selector env selector)
       | None => ret tt
       end;
  load_time ←' call EvEvaluate (evaluate env);
  path ←' (if shot
           then let p := ("screenshot_" ++ str env (py_hash env u) ++ ".png")%string in
                _ ←' call (EvScreenshot p) (screenshot env p); ret (Some p)
           else ret None);
  c ←' call EvContent (page_content env);
  t ←' call EvTitle (page_title env);
  ret (mkBrowserResult u c t path response load_time).

Definition scrape (u : string) (wait_for : option string) (shot : bool)
    : M (option BrowserResult) :=
  fun tr =>
    if negb (entered self) then (Raise AttributeError, tr)
    else
      match (_ ←' call EvNewContext (new_context env); setup_page) tr with
      | (Raise e, tr1) => (Raise e, tr1)
      | (Ok _, tr1) =>
          let '(r, tr2) := try_scrape u wait_for shot tr1 in
          let '(result, tr3) :=
            match r with
            | Ok b => (Some b, tr2)
            | Raise e => (None, EvError u e :: tr2)
            end in
          match close env with
          | Ok _ => (Ok result, EvClose :: tr3)
          | Raise e => (Raise e, EvClose :: tr3)
          end
      end.

End Scraper.

(** How many times the context was closed, and opened. *)
Fixpoint closes (tr : list Event) : nat :=
  match tr with
  | [] => 0
  | EvClose :: tr' => S (closes tr')
  | _ :: tr' => closes tr'
  end.

Fixpoint opens (tr : list Event) : nat :=
  match tr with
  | [] => 0
  | EvNewContext :: tr' => S (opens tr')
  | _ :: tr' => opens tr'
  end.


(** Setting up the page raises [e], at its first step that raises. *)
Definition setup_raises (env : Env) (self : Scraper) (e : exn) : Prop :=
  new_page env = Raise e
  ∨ (new_page env = Ok tt
     ∧ ((stealth self = true ∧ add_init_script env = Raise e)
        ∨ ((stealth self = true → add_init_script env = Ok tt)
           ∧ (set_default_timeout env = Raise e
              ∨ (set_default_timeout env = Ok tt
                 ∧ set_default_navigation_timeout env = Raise e))))).


(** A browser that opens contexts but no page. *)
Definition pageless : Env :=
  mkEnv (Ok tt) (Raise ConnectionError) (Ok tt) (Ok tt) (Ok tt)
        (fun _ => Ok (Some 200)) (fun _ => Ok tt) (Ok (12 # 1)%Q) (fun _ => Ok tt)
        (Ok "<html></html>") (Ok "Title") (Ok tt)
        (fun _ => 42) (fun _ => "42").

Definition stealthy : Scraper := mkScraper true true true.

End DynamicScraper.

(** * Theorems *)

(** ** The constructor *)

Example demo_client_init :
  PaginatedAPIClient_init "https://api.example.org/" None 5 10 = Ok demo_client.
Proof. reflexivity. Qed.

Example slow_client_init :
  PaginatedAPIClient_init "https://api.example.org" None 5 1 = Ok slow_client.
Proof. reflexivity. Qed.

Example no_rate_init :
  PaginatedAPIClient_init "https://api.example.org" None 5 0 = Raise ZeroDivisionError.
Proof. reflexivity. Qed.

(** ** The model on small inputs *)

Example truthy_values :
  map truthy [JNull; JBool false; JInt 0; JFloat 0; JStr ""; JList []; JObj [];
              JInt 7; JStr "p2"; JList [JNull]]
  = [false; false; false; false; false; false; false; true; true; true].
Proof. reflexivity. Qed.

Example get_on_a_list : py_get (JList []) "data" JNull = Raise AttributeError.
Proof. reflexivity. Qed.

Example iterate_a_string : py_iter (JStr "ab") = Ok [JStr "a"; JStr "b"].
Proof. reflexivity. Qed.

Example iterate_null : py_iter JNull = Raise TypeError.
Proof. reflexivity. Qed.

Example request_with_cursor :
  request_for demo_client "//items" (JStr "p2") 50
  = mkRequest "https://api.example.org/items" 50 (Some (JStr "p2")) None.
Proof. reflexivity. Qed.

Example request_with_empty_cursor :
  req_cursor (request_for demo_client "items" (JStr "") 50) = None.
Proof. reflexivity. Qed.

(** The cursor and the total are taken from the [pagination] object when
    the top-level keys are missing or falsy. *)
Example page_from_pagination :
  page_of_response three_pages_env
    (mkResponse 200
       (Ok (JObj [("data", JList [JInt 1]); ("next_cursor", JStr "");
                  ("pagination", JObj [("next", JStr "n2"); ("total", JInt 7)])]))
       (Some "42"))
  = Ok (mkAPIResponse (JList [JInt 1]) (JStr "n2") (JInt 7) 42).
Proof. reflexivity. Qed.

Example page_with_bad_pagination :
  page_of_response three_pages_env
    (mkResponse 200 (Ok (JObj [("data", JList [JInt 1]); ("pagination", JNull)])) None)
  = Raise AttributeError.
Proof. reflexivity. Qed.

Example page_with_bad_header :
  page_of_response three_pages_env
    (mkResponse 200 (Ok (JObj [("data", JList [JInt 1])])) (Some "soon"))
  = Raise ValueError.
Proof. reflexivity. Qed.

Example not_found_gives_sentinel :
  page_of_outcome three_pages_env (Ok (mkResponse 404 (Raise JSONDecodeError) None))
  = Ok sentinel.
Proof. reflexivity. Qed.

(** ** The primitives and [fetch_page] *)

Section Facts.

Context (env : Env) (self : Client).

Lemma time_sleep_net_calls d st :
  net_calls (time_sleep env d st) = net_calls st.
Proof. reflexivity. Qed.

Lemma log_net_calls m st : net_calls (log m st) = net_calls st.
Proof. reflexivity. Qed.

Lemma rate_limited_get_fst req st :
  fst (rate_limited_get env self req st) = transport env (net_calls st) req.
Proof.
  unfold rate_limited_get; cbn.
  destruct (Qltb _ _); cbn; destruct (transport env (net_calls st) req); reflexivity.
Qed.

Lemma rate_limited_get_net_calls req st :
  net_calls (snd (rate_limited_get env self req st)) = S (net_calls st).
Proof.
  unfold rate_limited_get; cbn.
  destruct (Qltb _ _); cbn; destruct (transport env _ req); reflexivity.
Qed.

Lemma fetch_page_fst endpoint cursor page_size st :
  fst (fetch_page env self endpoint cursor page_size st)
  = page_of_outcome env (transport env (net_calls st) (request_for self endpoint cursor page_size)).
Proof.
  unfold fetch_page, page_of_outcome.
  pose proof (rate_limited_get_fst (request_for self endpoint cursor page_size) st) as Hf.
  destruct (rate_limited_get env self _ st) as [out st1]; cbn in Hf; subst out.
  destruct (_ ≫= _) as [page|e]; [reflexivity|].
  destruct (is_RequestException e); reflexivity.
Qed.

Lemma fetch_page_net_calls endpoint cursor page_size st :
  net_calls (snd (fetch_page env self endpoint cursor page_size st)) = S (net_calls st).
Proof.
  unfold fetch_page.
  pose proof (rate_limited_get_net_calls (request_for self endpoint cursor page_size) st) as Hn.
  destruct (rate_limited_get env self _ st) as [out st1]; cbn in Hn.
  destruct (_ ≫= _) as [page|e]; [exact Hn|].
  destruct (is_RequestException e); exact Hn.
Qed.

End Facts.

(** ** The walker: [fetch_all] *)

Section WalkFacts.

Context (env : Env) (self : Client) (endpoint : string) (page_size : Z).

(** One iteration of the loop on a page that ends the traversal. *)
Lemma loop_last_page max_pages fuel cursor page_count st p l :
  max_pages_reached max_pages page_count = false →
  page_of_outcome env (transport env (net_calls st) (request_for self endpoint cursor page_size)) = Ok p →
  data p = JList l →
  truthy (next_cursor p) = false ∨ l = [] →
  ∃ st', fetch_all_loop env self endpoint page_size max_pages (S fuel) cursor page_count st
         = (l, BreakLastPage, st')
         ∧ net_calls st' = S (net_calls st).
Proof.
  intros Hmax Hp Hd Hstop. cbn [fetch_all_loop]. rewrite Hmax.
  pose proof (fetch_page_fst env self endpoint cursor page_size st) as Hf.
  pose proof (fetch_page_net_calls env self endpoint cursor page_size st) as Hn.
  destruct (fetch_page env self endpoint cursor page_size st) as [r st1].
  cbn in Hf, Hn. rewrite Hp in Hf. subst r. rewrite Hd. cbn [py_iter].
  assert (negb (truthy (next_cursor p)) || negb (truthy (JList l)) = true) as ->.
  { destruct Hstop as [-> | ->]; [reflexivity|]. cbn. apply orb_true_r. }
  eexists; split; [reflexivity|]. exact Hn.
Qed.

(** One iteration of the loop on a page after which the traversal goes on. *)
Lemma loop_inner_page max_pages fuel cursor page_count st p x l :
  max_pages_reached max_pages page_count = false →
  page_of_outcome env (transport env (net_calls st) (request_for self endpoint cursor page_size)) = Ok p →
  data p = JList (x :: l) →
  truthy (next_cursor p) = true →
  ∃ st1, net_calls st1 = S (net_calls st)
    ∧ fetch_all_loop env self endpoint page_size max_pages (S fuel) cursor page_count st
      = let '(rest, ex, st') :=
          fetch_all_loop env self endpoint page_size max_pages fuel
                         (next_cursor p) (page_count + 1) st1 in
        ((x :: l) ++ rest, ex, st').
Proof.
  intros Hmax Hp Hd Hc. cbn [fetch_all_loop]. rewrite Hmax.
  pose proof (fetch_page_fst env self endpoint cursor page_size st) as Hf.
  pose proof (fetch_page_net_calls env self endpoint cursor page_size st) as Hn.
  destruct (fetch_page env self endpoint cursor page_size st) as [r st1].
  cbn in Hf, Hn. rewrite Hp in Hf. subst r. rewrite Hd, Hc. cbn [py_iter truthy negb orb].
  eexists; split; [|reflexivity].
  destruct (rate_limit_remaining p <? 5); cbn; exact Hn.
Qed.

Lemma walk_pages_loop init : ∀ last fuel cursor page_count st,
  Forall inner_page init →
  last_page last →
  pages_served env self endpoint page_size (net_calls st) cursor (init ++ [last]) →
  (length init < fuel)%nat →
  ∃ st', fetch_all_loop env self endpoint page_size None fuel cursor page_count st
         = (concat (map items_of (init ++ [last])), BreakLastPage, st')
         ∧ net_calls st' = (net_calls st + length init + 1)%nat.
Proof.
  induction init as [|p init IH]; intros last fuel cursor page_count st Hinit Hlast Hserved Hfuel.
  - destruct fuel as [|fuel]; [cbn in Hfuel; lia|].
    cbn in Hserved. destruct Hserved as [Hp _].
    destruct Hlast as [[l Hd] Hstop].
    destruct (loop_last_page None fuel cursor page_count st last l eq_refl Hp Hd) as (st' & Hrun & Hn).
    { destruct Hstop as [Hc | He]; [by left | right; congruence]. }
    exists st'. split; [|cbn; lia].
    rewrite Hrun. cbn. unfold items_of. rewrite Hd. by rewrite app_nil_r.
  - destruct fuel as [|fuel]; [cbn in Hfuel; lia|].
    cbn in Hserved. destruct Hserved as [Hp Hserved].
    apply Forall_cons in Hinit as [[(x & l & Hd) Hc] Hinit].
    destruct (loop_inner_page None fuel cursor page_count st p x l eq_refl Hp Hd Hc)
      as (st1 & Hn1 & Hrun).
    rewrite <- Hn1 in Hserved.
    destruct (IH last fuel (next_cursor p) (page_count + 1) st1 Hinit Hlast Hserved)
      as (st' & Hrest & Hn'); [cbn in Hfuel; lia|].
    exists st'. split; [|cbn; lia].
    rewrite Hrun, Hrest. cbn.
    assert (items_of p = x :: l) as -> by (unfold items_of; by rewrite Hd). done.
Qed.

End WalkFacts.

(** C1. When the page fetcher returns a finite sequence of pages in which
    every page before the last has a non-empty item list and a cursor, and
    the last page has no cursor or no item, [fetch_all] yields the items of
    all the pages, in page order and then in the order within each page,
    makes one fetch attempt per page and then leaves its loop by the
    last-page rule. *)
Theorem fetch_all_yields_all_pages env self endpoint page_size
    (init : list APIResponse) (last : APIResponse) (fuel : nat) (st : State) :
  Forall inner_page init →
  last_page last →
  pages_served env self endpoint page_size (net_calls st) JNull (init ++ [last]) →
  (length init < fuel)%nat →
  ∃ st', fetch_all env self endpoint page_size None fuel st
         = (concat (map items_of (init ++ [last])), BreakLastPage, st')
         ∧ net_calls st' = (net_calls st + length init + 1)%nat.
Proof. apply walk_pages_loop. Qed.

Lemma three_pages_walk :
  ∃ st', fetch_all three_pages_env demo_client "/items" 2 None 3 (fresh_state 1000)
         = ([JStr "a"; JStr "b"; JStr "c"], BreakLastPage, st')
         ∧ net_calls st' = 3%nat.
Proof.
  apply (fetch_all_yields_all_pages three_pages_env demo_client "/items" 2
           [page1; page2] page3 3 (fresh_state 1000)).
  - repeat constructor; eauto.
  - split; [by exists [] | by left].
  - cbn; repeat split; reflexivity.
  - cbn; lia.
Defined.

(** ** The page limit *)

(** Unfolds one iteration of the loop in hypothesis [H] and splits on every
    test of the body; [E] names the equation of the call of [fetch_page]. *)
Ltac loop_cases H E :=
  cbn [fetch_all_loop] in H;
  match type of H with
  | context [max_pages_reached ?m ?c] =>
      let Hmax := fresh "Hmax" in
      destruct (max_pages_reached m c) eqn:Hmax
  end;
  [ | match type of H with
      | context [fetch_page ?e ?s ?ep ?c ?ps ?st] =>
          let r := fresh "r" in
          let st1 := fresh "st1" in
          pose proof (fetch_page_fst e s ep c ps st) as E;
          let Hn := fresh "Hcalls" in
          pose proof (fetch_page_net_calls e s ep c ps st) as Hn;
          destruct (fetch_page e s ep c ps st) as [r st1];
          cbn [fst snd] in E, Hn;
          destruct r as [?result|?e];
          [ let Hit := fresh "Hiter" in
            destruct (py_iter (data result)) as [?items|?e] eqn:Hit;
            [ let Hstop := fresh "Hstop" in
              destruct (negb (truthy (next_cursor result)) || negb (truthy (data result)))
                eqn:Hstop
            | ]
          | ]
      end ].

Section PageLimit.

Context (env : Env) (self : Client) (endpoint : string) (page_size : Z).

Lemma cooldown_net_calls (b : bool) st :
  net_calls (if b then time_sleep env 5 (log LogRateLimitLow st) else st) = net_calls st.
Proof. by destruct b. Qed.

Lemma max_pages_not_reached N page_count :
  1 ≤ N → max_pages_reached (Some N) page_count = false → page_count < N.
Proof.
  unfold max_pages_reached. intros HN H.
  apply andb_false_iff in H as [H | H].
  - apply negb_false_iff, Z.eqb_eq in H. lia.
  - apply Z.leb_gt in H. lia.
Qed.

Lemma max_pages_bound_loop N fuel : ∀ cursor page_count st items ex st',
  1 ≤ N → page_count ≤ N →
  fetch_all_loop env self endpoint page_size (Some N) fuel cursor page_count st
    = (items, ex, st') →
  Z.of_nat (net_calls st') ≤ Z.of_nat (net_calls st) + (N - page_count).
Proof.
  induction fuel as [|fuel IH]; intros cursor page_count st items ex st' HN Hpc Hrun.
  - cbn in Hrun. injection Hrun as <- <- <-. lia.
  - loop_cases Hrun Hpage.
    + injection Hrun as <- <- <-. cbn. lia.
    + apply max_pages_not_reached in Hmax; [|done].
      injection Hrun as <- <- <-. cbn. lia.
    + apply max_pages_not_reached in Hmax; [|done].
      destruct (fetch_all_loop _ _ _ _ _ fuel _ _ _) as [[rest ex1] st1'] eqn:Hrest.
      injection Hrun as <- <- <-.
      apply IH in Hrest; [|done|lia].
      rewrite cooldown_net_calls in Hrest. cbn in Hrest. lia.
    + apply max_pages_not_reached in Hmax; [|done].
      injection Hrun as <- <- <-. lia.
    + apply max_pages_not_reached in Hmax; [|done].
      injection Hrun as <- <- <-. lia.
Qed.

Lemma max_pages_exact_loop N pages : ∀ fuel cursor page_count st,
  1 ≤ N →
  Forall inner_page pages →
  page_count + Z.of_nat (length pages) = N →
  pages_served env self endpoint page_size (net_calls st) cursor pages →
  (length pages < fuel)%nat →
  ∃ st',
    fetch_all_loop env self endpoint page_size (Some N) fuel cursor page_count st
      = (concat (map items_of pages), BreakMaxPages, st')
    ∧ net_calls st' = (net_calls st + length pages)%nat.
Proof.
  induction pages as [|p pages IH];
    intros fuel cursor page_count st HN Hinner Hlen Hserved Hfuel;
    (destruct fuel as [|fuel]; [cbn in Hfuel; lia|]).
  - cbn [fetch_all_loop]. unfold max_pages_reached.
    cbn in Hlen. assert (page_count = N) as -> by lia.
    assert (negb (N =? 0) && (N <=? N) = true) as ->.
    { apply andb_true_iff. split; [apply negb_true_iff, Z.eqb_neq|apply Z.leb_le]; lia. }
    eexists. split; [reflexivity|]. cbn. lia.
  - cbn [length] in Hlen.
    assert (max_pages_reached (Some N) page_count = false) as Hmax.
    { unfold max_pages_reached. apply andb_false_iff. right. apply Z.leb_gt. lia. }
    cbn in Hserved. destruct Hserved as [Hp Hserved].
    apply Forall_cons in Hinner as [[(x & l & Hd) Hc] Hinner].
    destruct (loop_inner_page env self endpoint page_size (Some N) fuel cursor page_count
                st p x l Hmax Hp Hd Hc) as (st1 & Hn1 & Hrun).
    rewrite <- Hn1 in Hserved.
    destruct (IH fuel (next_cursor p) (page_count + 1) st1 HN Hinner) as (st' & Hrest & Hn');
      [lia|done|cbn in Hfuel; lia|].
    rewrite Hrun, Hrest. exists st'. split; [|cbn; lia].
    cbn. assert (items_of p = x :: l) as -> by (unfold items_of; by rewrite Hd). done.
Qed.

End PageLimit.

(** C5. With [max_pages = N], [N ≥ 1], [fetch_all] makes at most [N] fetch
    attempts. When the first [N] pages served to it all have items and a
    cursor, it yields their items, makes exactly [N] attempts and then
    leaves its loop by the page-limit test, whatever the server holds
    beyond them. *)
Theorem fetch_all_max_pages env self endpoint page_size (N : Z) (fuel : nat) (st : State) :
  1 ≤ N →
  let r := fetch_all env self endpoint page_size (Some N) fuel st in
  fetches st (final r) ≤ N
  ∧ ∀ pages,
      Forall inner_page pages →
      Z.of_nat (length pages) = N →
      pages_served env self endpoint page_size (net_calls st) JNull pages →
      (length pages < fuel)%nat →
      yielded r = concat (map items_of pages)
      ∧ exit_of r = BreakMaxPages
      ∧ fetches st (final r) = N.
Proof.
  intros HN r. unfold fetches. split.
  - subst r. unfold fetch_all.
    destruct (fetch_all_loop _ _ _ _ _ _ _ _ _) as [[items ex] st'] eqn:Hrun.
    apply max_pages_bound_loop in Hrun; [|done|lia]. cbn. lia.
  - intros pages Hinner Hlen Hserved Hfuel. subst r. unfold fetch_all.
    destruct (max_pages_exact_loop env self endpoint page_size N pages fuel JNull 0 st HN)
      as (st' & Hrun & Hn); [done|lia|done|done|].
    rewrite Hrun. cbn. repeat split; try done. lia.
Qed.

Lemma endless_always_more : always_more endless_env.
Proof.
  intros k req. eexists. split; [reflexivity|]. split; [cbn; eauto|reflexivity].
Qed.

Lemma two_of_three_pages :
  let r := fetch_all three_pages_env demo_client "/items" 2 (Some 2) 3 (fresh_state 1000) in
  fetches (fresh_state 1000) (final r) ≤ 2
  ∧ yielded r = [JStr "a"; JStr "b"; JStr "c"]
  ∧ exit_of r = BreakMaxPages
  ∧ fetches (fresh_state 1000) (final r) = 2.
Proof.
  destruct (fetch_all_max_pages three_pages_env demo_client "/items" 2 2 3 (fresh_state 1000))
    as [Hle Hexact]; [lia|].
  split; [exact Hle|].
  apply (Hexact [page1; page2]).
  - repeat constructor; eauto.
  - reflexivity.
  - cbn; repeat split; reflexivity.
  - cbn; lia.
Defined.

(** ** [max_pages = 0] *)

Section NoLimit.

Context (env : Env) (self : Client) (endpoint : string) (page_size : Z).

Lemma loop_max_pages_zero fuel : ∀ cursor page_count st,
  fetch_all_loop env self endpoint page_size (Some 0) fuel cursor page_count st
  = fetch_all_loop env self endpoint page_size None fuel cursor page_count st.
Proof.
  induction fuel as [|fuel IH]; intros cursor page_count st; [reflexivity|].
  cbn [fetch_all_loop max_pages_reached Z.eqb negb andb].
  destruct (fetch_page env self endpoint cursor page_size st) as [[result|e] st1]; [|reflexivity].
  destruct (py_iter (data result)) as [items|e]; [|reflexivity].
  destruct (negb _ || negb _); [reflexivity|].
  by rewrite IH.
Qed.

(** Without a page limit and with pages that always go on, the loop is
    still running after any number of iterations, and has fetched once in
    each. *)
Lemma loop_unbounded max_pages fuel : ∀ cursor page_count st,
  (∀ c, max_pages_reached max_pages c = false) →
  always_more env →
  let r := fetch_all_loop env self endpoint page_size max_pages fuel cursor page_count st in
  exit_of r = StillRunning ∧ fetches st (final r) = Z.of_nat fuel.
Proof.
  induction fuel as [|fuel IH]; intros cursor page_count st Hmax Hmore.
  - cbn. unfold fetches. split; [done|lia].
  - destruct (Hmore (net_calls st) (request_for self endpoint cursor page_size))
      as (p & Hp & (x & l & Hd) & Hc).
    destruct (loop_inner_page env self endpoint page_size max_pages fuel cursor page_count
                st p x l (Hmax page_count) Hp Hd Hc) as (st1 & Hn1 & Hrun).
    specialize (IH (next_cursor p) (page_count + 1) st1 Hmax Hmore).
    cbn zeta in *. rewrite Hrun.
    destruct (fetch_all_loop _ _ _ _ _ fuel _ _ _) as [[rest ex] st'].
    unfold exit_of, final, fetches in *. cbn in *. split; [tauto|lia].
Qed.

End NoLimit.

(** C10. [max_pages = 0] behaves exactly like [max_pages = None]: the page
    limit is never applied, so that on a stream whose pages always carry
    items and a cursor the traversal goes on for as many iterations as it
    is given. *)
Theorem fetch_all_max_pages_zero env self endpoint page_size (fuel : nat) (st : State) :
  fetch_all env self endpoint page_size (Some 0) fuel st
  = fetch_all env self endpoint page_size None fuel st
  ∧ (always_more env →
     let r := fetch_all env self endpoint page_size (Some 0) fuel st in
     exit_of r = StillRunning ∧ fetches st (final r) = Z.of_nat fuel).
Proof.
  split; [apply loop_max_pages_zero|].
  intros Hmore. by apply loop_unbounded.
Qed.

Lemma seven_pages_without_limit :
  let r := fetch_all endless_env demo_client "/items" 100 (Some 0) 7 (fresh_state 1000) in
  exit_of r = StillRunning ∧ fetches (fresh_state 1000) (final r) = 7.
Proof.
  apply (fetch_all_max_pages_zero endless_env demo_client "/items" 100 7 (fresh_state 1000)).
  exact endless_always_more.
Defined.

(** ** Failures of [fetch_page] *)

Lemma transient_is_RequestException e :
  transient_failure e = true → is_RequestException e = true.
Proof. by destruct e. Qed.

(** C2, as amended. When the request or the decoding of its response
    raises a [RequestException] (a transport error, a 4xx or 5xx status, a
    body that is not JSON), [fetch_page] returns the sentinel page: no
    item, no cursor, a remaining budget of zero. Any other exception
    raised while the page is built is raised to the caller. *)
Theorem fetch_page_failure env self endpoint cursor page_size (st : State) (e : exn) :
  (transport env (net_calls st) (request_for self endpoint cursor page_size)
     ≫= page_of_response env) = Raise e →
  (fetch_page env self endpoint cursor page_size st).1
    = (if is_RequestException e then Ok sentinel else Raise e)
  ∧ data sentinel = JList [] ∧ next_cursor sentinel = JNull
  ∧ rate_limit_remaining sentinel = 0.
Proof.
  intros Hfail. split; [|done].
  rewrite fetch_page_fst. unfold page_of_outcome. by rewrite Hfail.
Qed.

Lemma service_unavailable_gives_sentinel :
  (fetch_page flaky_env demo_client "/items" JNull 100 (fresh_state 1000)).1 = Ok sentinel
  ∧ data sentinel = JList [] ∧ next_cursor sentinel = JNull
  ∧ rate_limit_remaining sentinel = 0.
Proof.
  apply (fetch_page_failure flaky_env demo_client "/items" JNull 100 (fresh_state 1000)
           (HTTPError 503)).
  reflexivity.
Defined.

(** C2, as stated, fails: a 200 response whose body is a JSON array makes
    [body.get] raise [AttributeError], which is not a [RequestException];
    [fetch_page] raises it instead of returning the sentinel. *)
Lemma array_body_is_raised :
  let st := fresh_state 1000 in
  let req := request_for demo_client "/items" JNull 100 in
  (transport array_body_env (net_calls st) req ≫= page_of_response array_body_env)
    = Raise AttributeError
  ∧ (fetch_page array_body_env demo_client "/items" JNull 100 st).1 = Raise AttributeError
  ∧ (fetch_page array_body_env demo_client "/items" JNull 100 st).1 ≠ Ok sentinel.
Proof. repeat split; [reflexivity..|discriminate]. Qed.

(** C3, as amended. [fetch_page] goes through [_rate_limited_get] exactly
    once and so makes exactly one network attempt, whatever comes back: it
    never retries and never backs off, and a transient failure gives the
    sentinel page at once. *)
Theorem fetch_page_single_attempt env self endpoint cursor page_size (st : State) :
  let g := rate_limited_get env self (request_for self endpoint cursor page_size) st in
  let r := fetch_page env self endpoint cursor page_size st in
  fetches st r.2 = 1
  ∧ (r.2 = g.2 ∨ ∃ e, r.2 = log (LogRequestFailed e) g.2)
  ∧ (∀ e, (g.1 ≫= page_of_response env) = Raise e →
          transient_failure e = true → r.1 = Ok sentinel).
Proof.
  intros g r. split; [|split].
  - unfold fetches. subst r. rewrite fetch_page_net_calls. lia.
  - subst r g. unfold fetch_page.
    destruct (rate_limited_get env self _ st) as [out st1]. cbn [fst snd].
    destruct (out ≫= page_of_response env) as [page|e]; [by left|].
    destruct (is_RequestException e); [right; by exists e|by left].
  - intros e Hfail Htransient. subst r g. unfold fetch_page.
    destruct (rate_limited_get env self _ st) as [out st1]. cbn [fst snd] in *.
    rewrite Hfail. by rewrite (transient_is_RequestException e Htransient).
Qed.

Lemma service_unavailable_single_attempt :
  let r := fetch_page flaky_env demo_client "/items" JNull 100 (fresh_state 1000) in
  fetches (fresh_state 1000) r.2 = 1 ∧ r.1 = Ok sentinel.
Proof.
  destruct (fetch_page_single_attempt flaky_env demo_client "/items" JNull 100
              (fresh_state 1000)) as (Hone & _ & Hsentinel).
  split; [exact Hone|]. apply (Hsentinel (HTTPError 503)); reflexivity.
Defined.

(** C3, as stated, fails: the first attempt meets a 503 and a second one
    would have been answered with a page, yet [fetch_page] makes no second
    attempt and returns the sentinel. *)
Lemma service_unavailable_not_retried :
  let st := fresh_state 1000 in
  let req := request_for demo_client "/items" JNull 100 in
  let r := fetch_page flaky_env demo_client "/items" JNull 100 st in
  (transport flaky_env 0 req ≫= page_of_response flaky_env) = Raise (HTTPError 503)
  ∧ transient_failure (HTTPError 503) = true
  ∧ page_of_outcome flaky_env (transport flaky_env 1 req)
    = Ok (mkAPIResponse (JList [JStr "a"]) JNull JNull 999)
  ∧ r.1 = Ok sentinel
  ∧ ¬ retried st r.2.
Proof.
  repeat split; try reflexivity.
  unfold retried, fetches. vm_compute. discriminate.
Qed.

(** ** Timing of the gate *)

Lemma Qltb_true x y : Qltb x y = true → (x < y)%Q.
Proof.
  unfold Qltb. intros H. apply negb_true_iff in H.
  apply Qnot_le_lt. intros Hle. apply Qle_bool_iff in Hle. congruence.
Qed.

Lemma Qltb_false x y : Qltb x y = false → (y <= x)%Q.
Proof.
  unfold Qltb. intros H. apply negb_false_iff in H. by apply Qle_bool_iff.
Qed.

Section GateFacts.

Context (env : Env) (self : Client).
Hypothesis Hdelay : delays_nonneg env.

(** What one call of [_rate_limited_get] adds to the history: one request,
    issued no earlier than [min_interval] after the recorded time of the
    last answered request; the recorded time moves only when the call is
    answered. *)
Lemma rate_limited_get_requests req st :
  let r := rate_limited_get env self req st in
  ∃ issued recorded,
    requests (history r.2) = (issued, recorded, r.1) :: requests (history st)
    ∧ (now st <= issued)%Q
    ∧ (last_request_time st + min_interval self <= issued)%Q
    ∧ (issued <= now r.2)%Q
    ∧ match r.1 with
      | Ok _ => recorded = Some (now r.2) ∧ last_request_time r.2 = now r.2
      | Raise _ => recorded = None ∧ last_request_time r.2 = last_request_time st
      end.
Proof.
  pose proof (Hdelay (ticks st)) as H0.
  pose proof (Hdelay (S (ticks st))) as H1.
  pose proof (Hdelay (S (S (ticks st)))) as H2.
  pose proof (Hdelay (S (S (S (ticks st))))) as H3.
  unfold rate_limited_get. cbn.
  destruct (Qltb _ _) eqn:Hlt; cbn;
    [apply Qltb_true in Hlt | apply Qltb_false in Hlt];
    destruct (transport env (net_calls st) req) as [resp|e]; cbn;
    do 2 eexists; (split; [reflexivity|]); repeat split; lra.
Qed.

Lemma fetch_page_requests endpoint cursor page_size st :
  let r := fetch_page env self endpoint cursor page_size st in
  ∃ issued recorded out,
    requests (history r.2) = (issued, recorded, out) :: requests (history st)
    ∧ r.1 = page_of_outcome env out
    ∧ (now st <= issued)%Q
    ∧ (last_request_time st + min_interval self <= issued)%Q
    ∧ match recorded with
      | Some t => t = now r.2 ∧ last_request_time r.2 = t
      | None => True
      end.
Proof.
  cbn zeta. unfold fetch_page, page_of_outcome.
  destruct (rate_limited_get_requests (request_for self endpoint cursor page_size) st)
    as (issued & recorded & Hreq & Hnow & Hgap & _ & Hrec).
  destruct (rate_limited_get env self _ st) as [out st1]. cbn [fst snd] in *.
  exists issued, recorded, out.
  assert (match recorded with
          | Some t => t = now st1 ∧ last_request_time st1 = t
          | None => True
          end) as Hrec'.
  { destruct out; destruct Hrec as [-> Hlast]; done. }
  destruct (out ≫= page_of_response env) as [page|e]; cbn [fst snd]; [done|].
  by destruct (is_RequestException e).
Qed.

Lemma gate_inv_step req st :
  always_answered env → gate_inv self st → gate_inv self (rate_limited_get env self req st).2.
Proof.
  intros Hans [Hsp Hlast].
  destruct (rate_limited_get_requests req st)
    as (issued & recorded & Hreq & _ & Hgap & Hdone & Hrec).
  pose proof (rate_limited_get_fst env self req st) as Hout.
  destruct (rate_limited_get env self req st) as [out st1]. cbn [fst snd] in *.
  destruct (Hans (net_calls st) req) as [response Hresp].
  rewrite Hresp in Hout. subst out. destruct Hrec as [_ Hrec].
  unfold gate_inv. rewrite Hreq. cbn [spaced]. split; [split; [|done]|].
  - destruct (requests (history st)) as [|[[issued1 ?] ?] ?]; [done|]. lra.
  - rewrite Hrec. lra.
Qed.

(** Where every request is answered, the claim of the specification holds:
    successive requests through the gate are issued [min_interval] apart. *)
Lemma gate_spaces_answered_requests reqs : ∀ st,
  always_answered env → gate_inv self st →
  spaced (min_interval self) (requests (history (gate_run env self reqs st))).
Proof.
  induction reqs as [|req reqs IH]; intros st Hans Hinv; cbn [gate_run].
  - apply Hinv.
  - apply IH; [done|]. by apply gate_inv_step.
Qed.

End GateFacts.

(** C4 fails on a request that raises. At one request per second, the
    second of three successive requests fails to connect; the time of the
    gate is not advanced for it, and the third request is issued two
    milliseconds after the second. The same happens when the three requests
    are the fetches of [fetch_parallel]. *)
Theorem failed_request_is_not_counted :
  let st := gate_run dropped_env slow_client
              [items_request; items_request; items_request] (fresh_state 1000) in
  let st' := (fetch_parallel dropped_env slow_client ["/a"; "/b"; "/c"] None
                (fresh_state 1000)).2 in
  map (λ r, (in_ms r.1.1, in_ms <$> r.1.2)) (requests (history st))
    = [ (1001006, Some 1001008); (1001004, None); (1000001, Some 1000003) ]
  ∧ ¬ spaced (min_interval slow_client) (requests (history st))
  ∧ ¬ spaced (min_interval slow_client) (requests (history st')).
Proof.
  split; [|split].
  - vm_compute. reflexivity.
  - vm_compute. intros [Hgap _]. by apply Hgap.
  - vm_compute. intros [Hgap _]. by apply Hgap.
Qed.

(** ** The cooldown of [fetch_all] *)

Section Cooldown.

Context (env : Env) (self : Client) (endpoint : string) (page_size : Z)
        (max_pages : option Z).
Hypothesis Hdelay : delays_nonneg env.

Lemma cooldown_fetch_page cursor st :
  cool_inv env self st →
  cooldown_respected env (Qmax 5 (min_interval self))
    (requests (history (fetch_page env self endpoint cursor page_size st).2)).
Proof.
  intros [Hcool Hpending].
  destruct (fetch_page_requests env self Hdelay endpoint cursor page_size st)
    as (issued & recorded & out & Hreq & _ & Hnow & Hgap & _).
  rewrite Hreq. cbn [cooldown_respected]. split; [|done].
  destruct (requests (history st)) as [|[[issued1 [t|]] out1] ?]; [done| |done].
  intros Hlow. destruct Hpending as [Hlast Hserved]. specialize (Hserved Hlow).
  destruct (Q.max_spec 5 (min_interval self)) as [[_ Hmax] | [_ Hmax]]; lra.
Qed.

Lemma final_append (items : list json) (x : list json * Exit * State) :
  final (let '(rest, ex, st') := x in (items ++ rest, ex, st')) = final x.
Proof. by destruct x as [[rest ex] st']. Qed.

Lemma cooldown_loop fuel : ∀ cursor page_count st,
  cool_inv env self st →
  cooldown_respected env (Qmax 5 (min_interval self))
    (requests (history (final
       (fetch_all_loop env self endpoint page_size max_pages fuel cursor page_count st)))).
Proof.
  induction fuel as [|fuel IH]; intros cursor page_count st Hinv; [apply Hinv|].
  cbn [fetch_all_loop].
  destruct (max_pages_reached max_pages page_count); [apply Hinv|].
  pose proof (cooldown_fetch_page cursor st Hinv) as Hcool.
  destruct (fetch_page_requests env self Hdelay endpoint cursor page_size st)
    as (issued & recorded & out & Hreq & Hpage & _ & _ & Hrec).
  destruct (fetch_page env self endpoint cursor page_size st) as [r st1].
  cbn [fst snd] in *.
  destruct r as [result|e]; [|exact Hcool].
  destruct (py_iter (data result)) as [items|e]; [|exact Hcool].
  destruct (negb _ || negb _); [exact Hcool|].
  rewrite final_append. apply IH. unfold cool_inv.
  assert (low_quota env out = (rate_limit_remaining result <? 5)) as Hlow.
  { unfold low_quota. by rewrite <- Hpage. }
  pose proof (Hdelay (ticks st1)) as Hd.
  destruct (rate_limit_remaining result <? 5);
    cbn [time_sleep log history requests now last_request_time ticks];
    rewrite Hreq; (split; [by rewrite <- Hreq|]);
    destruct recorded as [t|]; try done;
    destruct Hrec as [-> Hlast]; rewrite Hlast;
    (split; [lra|]); intros Hl; [lra|congruence].
Qed.

End Cooldown.

(** C6, as amended. When a fetched page reports a remaining budget below 5
    and the traversal goes on, the next request is issued at least 5
    seconds after the time recorded for the request of that page, and at
    least [min_interval] after it: the larger of the two, not their sum. *)
Theorem fetch_all_cooldown env self endpoint page_size max_pages (fuel : nat) (st : State) :
  delays_nonneg env →
  history st = [] →
  cooldown_respected env (Qmax 5 (min_interval self))
    (requests (history (final (fetch_all env self endpoint page_size max_pages fuel st)))).
Proof.
  intros Hdelay Hfresh. apply cooldown_loop; [done|].
  unfold cool_inv. by rewrite Hfresh.
Qed.

Lemma millisecond_delays_nonneg tr f : delays_nonneg (mkEnv tr (fun _ => millisecond) f).
Proof. intros k. cbn. unfold millisecond. lra. Qed.

Lemma low_budget_cooldown :
  cooldown_respected low_budget_env (Qmax 5 (min_interval demo_client))
    (requests (history (final
       (fetch_all low_budget_env demo_client "/items" 100 None 5 (fresh_state 1000))))).
Proof.
  apply (fetch_all_cooldown low_budget_env demo_client "/items" 100 None 5 (fresh_state 1000)).
  - apply millisecond_delays_nonneg.
  - reflexivity.
Defined.

(** C6, as stated, fails: at ten requests per second the first page reports
    3 remaining requests, and the second request is issued 5.002 seconds
    after the time recorded for the first, less than the cooldown of 5
    seconds beyond the steady-state interval of 0.1 second. *)
Lemma low_budget_cooldown_not_added :
  let r := fetch_all low_budget_env demo_client "/items" 100 None 5 (fresh_state 1000) in
  map (λ q, (in_ms q.1.1, in_ms <$> q.1.2, low_quota low_budget_env q.2))
      (requests (history (final r)))
    = [ (1005005, Some 1005007, false); (1000001, Some 1000003, true) ]
  ∧ ¬ cooldown_respected low_budget_env (min_interval demo_client + 5)
        (requests (history (final r))).
Proof.
  split.
  - vm_compute. reflexivity.
  - vm_compute. intros [Hwait _]. by apply Hwait.
Qed.

(** ** Cancellation *)

Section Exits.

Context (env : Env) (self : Client) (endpoint : string) (page_size : Z)
        (max_pages : option Z).

Lemma page_of_outcome_raises out e :
  page_of_outcome env out = Raise e → is_RequestException e = false.
Proof.
  unfold page_of_outcome. destruct (out ≫= page_of_response env) as [page|e']; [done|].
  destruct (is_RequestException e') eqn:He; [done|]. by intros [= <-].
Qed.

Lemma py_iter_raises v e : py_iter v = Raise e → is_RequestException e = false.
Proof. destruct v; cbn; intros [= <-]; done. Qed.

Lemma exit_explained_loop fuel : ∀ cursor page_count st,
  exit_explained env self endpoint page_size max_pages page_count fuel st
    (fetch_all_loop env self endpoint page_size max_pages fuel cursor page_count st).
Proof.
  induction fuel as [|fuel IH]; intros cursor page_count st.
  - cbn. unfold fetches. lia.
  - destruct (fetch_all_loop _ _ _ _ _ (S fuel) _ _ _) as [[items ex] st'] eqn:Hrun.
    unfold exit_explained, exit_of, final, fetches. cbn [fst snd].
    loop_cases Hrun Hpage.
    + injection Hrun as <- <- <-. cbn [log net_calls].
      unfold max_pages_reached in Hmax. destruct max_pages as [n|]; [|done].
      apply andb_true_iff in Hmax as [Hn Hle].
      apply negb_true_iff, Z.eqb_neq in Hn. apply Z.leb_le in Hle.
      exists n. repeat split; [done|lia].
    + injection Hrun as <- <- <-. cbn [log net_calls].
      exists (net_calls st), cursor, result. repeat split; [done|done|].
      apply orb_true_iff in Hstop as [H | H]; apply negb_true_iff in H; tauto.
    + specialize (IH (next_cursor result) (page_count + 1)
                     (if rate_limit_remaining result <? 5
                      then time_sleep env 5
                             (log LogRateLimitLow
                                (log (LogFetchedPage (page_count + 1) (length items0)) st1))
                      else log (LogFetchedPage (page_count + 1) (length items0)) st1)).
      destruct (fetch_all_loop _ _ _ _ _ fuel _ _ _) as [[rest ex1] st1'].
      injection Hrun as <- <- <-.
      unfold exit_explained, exit_of, final, fetches in IH. cbn [fst snd] in IH.
      rewrite cooldown_net_calls in IH. cbn [log net_calls] in IH.
      destruct ex1; [destruct IH as (n & ? & ? & ?); exists n; repeat split; [done..|lia]
                    | done | done | lia].
    + injection Hrun as <- <- <-. by eapply py_iter_raises.
    + injection Hrun as <- <- <-. symmetry in Hpage. by eapply page_of_outcome_raises.
Qed.

End Exits.

(** C9, as amended. [fetch_all] takes no cancellation signal and has no
    cancelled status. Its loop tests the page limit at the top of every
    iteration and ends in one of three ways only: by that test, with a page
    limit set and reached; by the last-page rule, on a page without cursor
    or without item; or by an exception other than a [RequestException]
    raised in the iteration. Otherwise it is still running after any number
    of iterations, having fetched once in each. *)
Theorem fetch_all_exits env self endpoint page_size max_pages (fuel : nat) (st : State) :
  exit_explained env self endpoint page_size max_pages 0 fuel st
    (fetch_all env self endpoint page_size max_pages fuel st).
Proof. apply exit_explained_loop. Qed.

(** C9, as stated, fails: a caller that raises a cancellation signal while
    the first page of the three-page stream is being fetched has no way to
    pass it to the walker, which goes on to fetch the three pages and ends
    by the last-page rule. *)
Lemma three_pages_not_cancelled :
  let st := fresh_state 1000 in
  let r := fetch_all three_pages_env demo_client "/items" 2 None 10 st in
  yielded r = [JStr "a"; JStr "b"; JStr "c"]
  ∧ exit_of r = BreakLastPage
  ∧ fetches st (final r) = 3
  ∧ ¬ cancellation_honoured 0 st (final r).
Proof.
  repeat split; try reflexivity.
  unfold cancellation_honoured. vm_compute. intros H. by apply H.
Qed.

(** ** Fan-out: [fetch_parallel] *)

Section FanOut.

Context (env : Env) (self : Client).

Lemma fetch_parallel_run_cons ep order results st :
  fetch_parallel_run env self (ep :: order) results st
  = let r := fetch_page env self ep JNull 100 st in
    fetch_parallel_run env self order (<[ep := stored_page r.1]> results)
      (match r.1 with
       | Ok _ => r.2
       | Raise e => log (LogFetchFailed ep e) r.2
       end).
Proof.
  cbn [fetch_parallel_run].
  by destruct (fetch_page env self ep JNull 100 st) as [[page|e] st1].
Qed.

(** After the calls in [order] have completed, every endpoint among them
    holds what one of its calls produced and every other key is as it
    was. *)
Lemma fetch_parallel_run_lookup order : ∀ results st endpoint,
  let m := (fetch_parallel_run env self order results st).1 in
  (endpoint ∈ order →
     ∃ k, m !! endpoint
          = Some (stored_page (page_of_outcome env
                    (transport env k (request_for self endpoint JNull 100)))))
  ∧ (endpoint ∉ order → m !! endpoint = results !! endpoint).
Proof.
  induction order as [|ep order IH]; intros results st endpoint; cbn zeta.
  - cbn. split; [by intros ?%elem_of_nil|done].
  - rewrite fetch_parallel_run_cons. cbn zeta.
    match goal with
    | |- context [fetch_parallel_run env self order ?m' ?st'] =>
        destruct (IH m' st' endpoint) as [Hin Hout]
    end.
    split.
    + intros Hel. destruct (decide (endpoint ∈ order)) as [Ho|Hno]; [by apply Hin|].
      apply elem_of_cons in Hel as [-> | Hel]; [|done].
      rewrite (Hout Hno), lookup_insert_eq, fetch_page_fst. by eexists.
    + intros Hnot. apply not_elem_of_cons in Hnot as [Hne Hno].
      rewrite (Hout Hno). by rewrite lookup_insert_ne.
Qed.

Lemma fetch_parallel_run_dom order : ∀ results st,
  dom (fetch_parallel_run env self order results st).1 = list_to_set order ∪ dom results.
Proof.
  induction order as [|ep order IH]; intros results st.
  - cbn. by rewrite (left_id_L ∅ (∪)).
  - rewrite fetch_parallel_run_cons. cbn zeta. rewrite IH, dom_insert_L, list_to_set_cons.
    rewrite (comm_L (∪) {[ep]} (list_to_set order)). by rewrite (assoc_L (∪)).
Qed.

Lemma list_to_set_permutation (l1 l2 : list string) :
  l1 ≡ₚ l2 → list_to_set l1 =@{gset string} list_to_set l2.
Proof.
  intros Hperm. apply set_eq. intros x. rewrite !elem_of_list_to_set. by rewrite Hperm.
Qed.

(** With a positive number of workers [fetch_parallel] returns a map, the
    one built by the completions. *)
Lemma fetch_parallel_ok order max_workers st :
  0 < workers self max_workers →
  fetch_parallel env self order max_workers st
  = (Ok (fetch_parallel_run env self order ∅ st).1,
     (fetch_parallel_run env self order ∅ st).2).
Proof.
  intros Hw. unfold fetch_parallel.
  destruct (workers self max_workers <=? 0) eqn:Hle; [apply Z.leb_le in Hle; lia|].
  by destruct (fetch_parallel_run env self order ∅ st).
Qed.

Lemma stored_failure endpoint k :
  always_fails env self endpoint →
  stored_page (page_of_outcome env (transport env k (request_for self endpoint JNull 100)))
  = sentinel.
Proof.
  intros Hfail. destruct (Hfail k) as [e He].
  unfold page_of_outcome. rewrite He. by destruct (is_RequestException e).
Qed.

Lemma stored_success endpoint page k :
  always_gives env self endpoint page →
  stored_page (page_of_outcome env (transport env k (request_for self endpoint JNull 100)))
  = page.
Proof. intros Hgives. unfold page_of_outcome. by rewrite (Hgives k). Qed.

End FanOut.

(** C7. In a fan-out over a list of endpoints one of which fails at every
    fetch, [fetch_parallel] still returns: the failing endpoint is recorded
    with the sentinel page, whether [fetch_page] absorbed the failure or
    the coordinator caught it, and every endpoint whose fetch succeeds is
    recorded with its page. *)
Theorem fetch_parallel_isolates_failure env self (endpoints : list string)
    (bad : string) max_workers (st : State) :
  0 < workers self max_workers →
  bad ∈ endpoints →
  always_fails env self bad →
  (∃ res st', fetch_parallel_returns env self endpoints max_workers st res st')
  ∧ ∀ res st',
      fetch_parallel_returns env self endpoints max_workers st res st' →
      ∃ m, res = Ok m
           ∧ m !! bad = Some sentinel
           ∧ ∀ endpoint page,
               endpoint ∈ endpoints → always_gives env self endpoint page →
               m !! endpoint = Some page.
Proof.
  intros Hw Hbad Hfail. split.
  - do 2 eexists. exists endpoints. split; [done|]. by apply fetch_parallel_ok.
  - intros res st' (order & Hperm & Hrun).
    rewrite fetch_parallel_ok in Hrun by done. injection Hrun as <- <-.
    eexists. split; [done|]. split.
    + destruct (fetch_parallel_run_lookup env self order ∅ st bad) as [Hin _].
      destruct Hin as [k ->]; [by rewrite Hperm|]. by rewrite stored_failure.
    + intros endpoint page Hel Hgives.
      destruct (fetch_parallel_run_lookup env self order ∅ st endpoint) as [Hin _].
      destruct Hin as [k ->]; [by rewrite Hperm|]. by rewrite (stored_success _ _ _ page).
Qed.

Lemma catalogue_isolates_broken :
  let st := fresh_state 1000 in
  let endpoints := ["/users"; "/broken"; "/orders"] in
  (∃ res st', fetch_parallel_returns catalogue_env demo_client endpoints None st res st')
  ∧ ∀ res st',
      fetch_parallel_returns catalogue_env demo_client endpoints None st res st' →
      ∃ m, res = Ok m
           ∧ m !! "/broken" = Some sentinel
           ∧ m !! "/users" = Some users_page
           ∧ m !! "/orders" = Some orders_page.
Proof.
  destruct (fetch_parallel_isolates_failure catalogue_env demo_client
              ["/users"; "/broken"; "/orders"] "/broken" None (fresh_state 1000))
    as [Hsome Hall].
  - reflexivity.
  - apply list_elem_of_In. cbn. tauto.
  - intros k. by eexists.
  - split; [exact Hsome|]. intros res st' Hret.
    destruct (Hall res st' Hret) as (m & Hres & Hbroken & Hgood).
    exists m. repeat split; [exact Hres|exact Hbroken|..]; apply Hgood;
      try (apply list_elem_of_In; cbn; tauto); intros k; reflexivity.
Defined.

(** C8. Whatever the order in which the fetches complete, the keys of the
    map returned by [fetch_parallel] are the endpoints it was given; and
    against a server whose answer to a request does not change, two runs
    return the same map. *)
Theorem fetch_parallel_order_independent env self (endpoints : list string) max_workers
    (st1 st2 st1' st2' : State) (res1 res2 : Result (gmap string APIResponse)) :
  0 < workers self max_workers →
  fetch_parallel_returns env self endpoints max_workers st1 res1 st1' →
  fetch_parallel_returns env self endpoints max_workers st2 res2 st2' →
  ∃ m1 m2 : gmap string APIResponse,
    res1 = Ok m1 ∧ res2 = Ok m2
    ∧ dom m1 = list_to_set endpoints
    ∧ dom m2 = list_to_set endpoints
    ∧ (stateless env → m1 = m2).
Proof.
  intros Hw (order1 & Hperm1 & Hrun1) (order2 & Hperm2 & Hrun2).
  rewrite fetch_parallel_ok in Hrun1, Hrun2 by done.
  injection Hrun1 as <- <-. injection Hrun2 as <- <-.
  do 2 eexists. split; [done|]. split; [done|].
  rewrite !fetch_parallel_run_dom, dom_empty_L, !(right_id_L ∅ (∪)).
  split; [by apply list_to_set_permutation|].
  split; [by apply list_to_set_permutation|].
  intros Hstateless. apply map_eq. intros endpoint.
  destruct (fetch_parallel_run_lookup env self order1 ∅ st1 endpoint) as [Hin1 Hout1].
  destruct (fetch_parallel_run_lookup env self order2 ∅ st2 endpoint) as [Hin2 Hout2].
  destruct (decide (endpoint ∈ endpoints)) as [Hel|Hnel].
  - destruct Hin1 as [k1 ->]; [by rewrite Hperm1|].
    destruct Hin2 as [k2 ->]; [by rewrite Hperm2|].
    by rewrite (Hstateless k1 k2).
  - rewrite Hout1, Hout2; [done|by rewrite Hperm2|by rewrite Hperm1].
Qed.

Lemma catalogue_stateless : stateless catalogue_env.
Proof. by intros k k' req. Qed.

Lemma catalogue_two_orders :
  let endpoints := ["/users"; "/broken"; "/orders"] in
  let run1 := fetch_parallel catalogue_env demo_client
                ["/users"; "/broken"; "/orders"] None (fresh_state 1000) in
  let run2 := fetch_parallel catalogue_env demo_client
                ["/orders"; "/broken"; "/users"] None (fresh_state 2000) in
  ∃ m1 m2 : gmap string APIResponse,
    run1.1 = Ok m1 ∧ run2.1 = Ok m2
    ∧ dom m1 = list_to_set endpoints
    ∧ dom m2 = list_to_set endpoints
    ∧ m1 = m2.
Proof.
  intros endpoints run1 run2.
  destruct (fetch_parallel_order_independent catalogue_env demo_client endpoints None
              (fresh_state 1000) (fresh_state 2000) run1.2 run2.2 run1.1 run2.1)
    as (m1 & m2 & H1 & H2 & Hd1 & Hd2 & Heq).
  - reflexivity.
  - exists ["/users"; "/broken"; "/orders"]. split; [done|]. apply surjective_pairing.
  - exists ["/orders"; "/broken"; "/users"]. split; [|apply surjective_pairing].
    symmetry. apply (Permutation_rev ["/users"; "/broken"; "/orders"]).
  - exists m1, m2. repeat split; [exact H1|exact H2|exact Hd1|exact Hd2|].
    apply Heq. exact catalogue_stateless.
Defined.

(** * Further properties of the client *)

(** ** Pages built by [fetch_page] *)

Section Pages.

Context (env : Env).

Lemma raise_for_status_ok response :
  status_code response < 400 ∨ 600 ≤ status_code response →
  raise_for_status response = Ok tt.
Proof.
  intros Hs. unfold raise_for_status.
  destruct (400 <=? status_code response) eqn:H4; [|done].
  destruct (status_code response <? 600) eqn:H6; [|done].
  apply Z.leb_le in H4. apply Z.ltb_lt in H6. lia.
Qed.

Lemma py_or_pagination kv k k' :
  match assoc "pagination" kv with
  | None | Some (JObj _) => True
  | Some _ => False
  end →
  py_or (default JNull (assoc k kv))
        (p ← py_get (JObj kv) "pagination" (JObj []); py_get p k' JNull)
  = Ok (get_or_pagination kv k k').
Proof.
  intros Hp. unfold py_or, get_or_pagination.
  destruct (truthy (default JNull (assoc k kv))); [done|].
  cbn. destruct (assoc "pagination" kv) as [[| | | | | |pkv]|]; done.
Qed.

Lemma page_of_well_formed response kv :
  well_formed env response kv →
  page_of_response env response
  = Ok (mkAPIResponse (default (JList []) (assoc "data" kv))
          (get_or_pagination kv "next_cursor" "next")
          (get_or_pagination kv "total_count" "total")
          match x_ratelimit_remaining response with
          | None => 999
          | Some s => default 999 (py_int env s)
          end).
Proof.
  intros (Hstatus & Hjson & Hpag & Hhdr).
  unfold page_of_response. rewrite (raise_for_status_ok _ Hstatus), Hjson. cbn.
  pose proof (py_or_pagination kv "next_cursor" "next" Hpag) as Hc.
  pose proof (py_or_pagination kv "total_count" "total" Hpag) as Ht.
  cbn in Hc, Ht. rewrite Hc. cbn. rewrite Ht. cbn.
  unfold header_remaining.
  destruct (x_ratelimit_remaining response) as [s|]; [|done].
  destruct Hhdr as [z Hz]. by rewrite Hz.
Qed.

End Pages.

(** X1. A response without error status whose body is a JSON object, with a
    [pagination] that is absent or an object and a remaining-budget header
    that is absent or an integer, always gives a page: the items are the
    [data] of the body, or the empty list when the key is missing; the
    cursor and the total are the top-level [next_cursor] and [total_count]
    when truthy, the [next] and [total] of [pagination] otherwise; the
    remaining budget is 999 when the header is missing. *)
Theorem fetch_page_well_formed env self endpoint cursor page_size (st : State)
    (response : Response) (kv : list (string * json)) :
  transport env (net_calls st) (request_for self endpoint cursor page_size) = Ok response →
  well_formed env response kv →
  (fetch_page env self endpoint cursor page_size st).1
  = Ok (mkAPIResponse (default (JList []) (assoc "data" kv))
          (get_or_pagination kv "next_cursor" "next")
          (get_or_pagination kv "total_count" "total")
          match x_ratelimit_remaining response with
          | None => 999
          | Some s => default 999 (py_int env s)
          end).
Proof.
  intros Hresp Hwf. rewrite fetch_page_fst, Hresp.
  unfold page_of_outcome. cbn. by rewrite (page_of_well_formed env response kv Hwf).
Qed.

Lemma orders_page_fetched :
  (fetch_page catalogue_env demo_client "/orders" JNull 100 (fresh_state 1000)).1
  = Ok orders_page.
Proof.
  apply (fetch_page_well_formed catalogue_env demo_client "/orders" JNull 100
           (fresh_state 1000)
           (mkResponse 200 (Ok (page_body [JInt 17] (JStr "o2"))) (Some "50"))
           [("data", JList [JInt 17]); ("next_cursor", JStr "o2")]).
  - reflexivity.
  - repeat split; [left; cbn; lia|by eexists].
Defined.

Section Raises.

Context (env : Env).

Lemma py_or_pagination_raises kv k k' e :
  py_or (default JNull (assoc k kv))
        (p ← py_get (JObj kv) "pagination" (JObj []); py_get p k' JNull)
  = Raise e →
  e = AttributeError ∧ ¬ object_shaped (JObj kv).
Proof.
  unfold py_or, object_shaped. destruct (truthy _); [done|]. cbn.
  destruct (assoc "pagination" kv) as [[| | | | | |pkv]|]; cbn; intros [= <-]; auto.
Qed.

Lemma page_of_response_raises response e :
  page_of_response env response = Raise e →
  is_RequestException e = false →
  (status_code response < 400 ∨ 600 ≤ status_code response)
  ∧ (json_result response = Raise e
     ∨ ∃ body, json_result response = Ok body
         ∧ ((e = AttributeError ∧ ¬ object_shaped body)
            ∨ (e = ValueError
               ∧ ∃ s, x_ratelimit_remaining response = Some s ∧ py_int env s = None))).
Proof.
  unfold page_of_response, raise_for_status. intros Hraise Hnot.
  destruct (400 <=? status_code response) eqn:H4;
    [destruct (status_code response <? 600) eqn:H6|]; cbn in Hraise.
  { injection Hraise as <-. done. }
  all: (split; [try (apply Z.ltb_ge in H6); try (apply Z.leb_gt in H4); lia|]).
  all: destruct (json_result response) as [body|e'] eqn:Hjson; cbn in Hraise;
    [right; exists body; split; [done|] | left; congruence].
  all: destruct body as [| | | | | |kv]; cbn in Hraise;
    try (injection Hraise as <-; left; split; [done|]; cbn; tauto).
  all: destruct (py_or (default JNull (assoc "next_cursor" kv)) _) as [nc|e1] eqn:Hnc;
    [|apply py_or_pagination_raises in Hnc as [-> Hshape];
      cbn in Hraise; injection Hraise as <-; by left].
  all: cbn in Hraise;
    destruct (py_or (default JNull (assoc "total_count" kv)) _) as [tc|e2] eqn:Htc;
    [|apply py_or_pagination_raises in Htc as [-> Hshape];
      cbn in Hraise; injection Hraise as <-; by left].
  all: cbn in Hraise; unfold header_remaining in Hraise;
    destruct (x_ratelimit_remaining response) as [s|]; [|done];
    destruct (py_int env s) eqn:Hint; [done|]; cbn in Hraise;
    injection Hraise as <-; right; split; [done|]; by exists s.
Qed.

End Raises.

(** X2. [fetch_page] raises in these cases only: [session.get] or
    [response.json()] raised something that is not a [RequestException];
    or the response has no error status and decodes to JSON, and either
    the body is not an object with a well-shaped [pagination]
    ([AttributeError]) or the remaining-budget header is not an integer
    ([ValueError]). An error status never makes it raise. *)
Theorem fetch_page_raises env self endpoint cursor page_size (st : State) (e : exn) :
  (fetch_page env self endpoint cursor page_size st).1 = Raise e →
  is_RequestException e = false
  ∧ (transport env (net_calls st) (request_for self endpoint cursor page_size) = Raise e
     ∨ ∃ response,
         transport env (net_calls st) (request_for self endpoint cursor page_size)
           = Ok response
         ∧ (status_code response < 400 ∨ 600 ≤ status_code response)
         ∧ (json_result response = Raise e
            ∨ ∃ body, json_result response = Ok body
                ∧ ((e = AttributeError ∧ ¬ object_shaped body)
                   ∨ (e = ValueError
                      ∧ ∃ s, x_ratelimit_remaining response = Some s
                             ∧ py_int env s = None)))).
Proof.
  rewrite fetch_page_fst. unfold page_of_outcome.
  destruct (transport env (net_calls st) _) as [response|e0]; cbn.
  - destruct (page_of_response env response) as [page|e1] eqn:Hpage; [done|].
    destruct (is_RequestException e1) eqn:He1; [done|]. intros [= <-].
    split; [done|]. right. exists response. split; [done|].
    by apply page_of_response_raises.
  - destruct (is_RequestException e0) eqn:He0; [done|]. intros [= <-]. by split; [|left].
Qed.

Lemma broken_endpoint_raises :
  let out := transport catalogue_env 0 (request_for demo_client "/broken" JNull 100) in
  is_RequestException AttributeError = false
  ∧ (out = Raise AttributeError
     ∨ ∃ response,
         out = Ok response
         ∧ (status_code response < 400 ∨ 600 ≤ status_code response)
         ∧ (json_result response = Raise AttributeError
            ∨ ∃ body, json_result response = Ok body
                ∧ ((AttributeError = AttributeError ∧ ¬ object_shaped body)
                   ∨ (AttributeError = ValueError
                      ∧ ∃ s, x_ratelimit_remaining response = Some s
                             ∧ py_int catalogue_env s = None)))).
Proof.
  apply (fetch_page_raises catalogue_env demo_client "/broken" JNull 100
           (fresh_state 1000) AttributeError).
  reflexivity.
Defined.

(** ** Traversals that end early *)

Section EarlyEnd.

Context (env : Env) (self : Client) (endpoint : string) (page_size : Z)
        (max_pages : option Z).
Hypothesis Hno_limit : ∀ c, max_pages_reached max_pages c = false.

(** The loop over pages that all go on, up to what comes after them. *)
Lemma loop_after_pages init : ∀ fuel cursor page_count st after,
  Forall inner_page init →
  served_then env self endpoint page_size (net_calls st) cursor init after →
  ∃ st1 c,
    net_calls st1 = (net_calls st + length init)%nat
    ∧ after (net_calls st1) c
    ∧ fetch_all_loop env self endpoint page_size max_pages (length init + fuel)
        cursor page_count st
      = let '(rest, ex, st') :=
          fetch_all_loop env self endpoint page_size max_pages fuel c
            (page_count + Z.of_nat (length init)) st1 in
        (concat (map items_of init) ++ rest, ex, st').
Proof.
  induction init as [|p init IH]; intros fuel cursor page_count st after Hinner Hserved.
  - exists st, cursor. cbn [length Nat.add]. split; [lia|]. split.
    + exact Hserved.
    + cbn. rewrite Z.add_0_r. by destruct (fetch_all_loop _ _ _ _ _ _ _ _ _) as [[??]?].
  - cbn in Hserved. destruct Hserved as [Hp Hserved].
    apply Forall_cons in Hinner as [[(x & l & Hd) Hc] Hinner].
    destruct (loop_inner_page env self endpoint page_size max_pages (length init + fuel)
                cursor page_count st p x l (Hno_limit page_count) Hp Hd Hc)
      as (st0 & Hn0 & Hrun).
    rewrite <- Hn0 in Hserved.
    destruct (IH fuel (next_cursor p) (page_count + 1) st0 after Hinner Hserved)
      as (st1 & c & Hn1 & Hafter & Hrest).
    exists st1, c. split; [cbn; lia|]. split; [done|].
    cbn [length Nat.add]. rewrite Hrun, Hrest.
    replace (page_count + 1 + Z.of_nat (length init))
      with (page_count + Z.of_nat (S (length init))) by lia.
    clear Hrun Hrest.
    match goal with
    | |- context [fetch_all_loop env self endpoint page_size max_pages fuel c ?pc st1] =>
        destruct (fetch_all_loop env self endpoint page_size max_pages fuel c pc st1)
          as [[rest ex] st']
    end.
    cbn [map concat].
    assert (items_of p = x :: l) as -> by (unfold items_of; by rewrite Hd).
    by rewrite app_assoc.
Qed.

(** The iteration in which the fetch fails with a [RequestException]. *)
Lemma loop_failed_fetch fuel cursor page_count st e :
  attempt env self endpoint page_size (net_calls st) cursor = Raise e →
  is_RequestException e = true →
  ∃ st',
    fetch_all_loop env self endpoint page_size max_pages (S fuel) cursor page_count st
      = ([], BreakLastPage, st')
    ∧ net_calls st' = S (net_calls st)
    ∧ ∃ h, history st'
           = EvLog (LogFetchedPage (page_count + 1) 0) :: EvLog (LogRequestFailed e) :: h
           ∧ sleeps h = sleeps (history (rate_limited_get env self
                                  (request_for self endpoint cursor page_size) st).2).
Proof.
  intros Hfail Hreq. cbn [fetch_all_loop]. rewrite Hno_limit.
  unfold fetch_page, attempt in *.
  pose proof (rate_limited_get_fst env self (request_for self endpoint cursor page_size) st)
    as Hfst.
  pose proof (rate_limited_get_net_calls env self
                (request_for self endpoint cursor page_size) st) as Hn.
  destruct (rate_limited_get env self _ st) as [out st1]. cbn [fst snd] in *.
  subst out. rewrite Hfail, Hreq. cbn.
  eexists. split; [reflexivity|]. split; [exact Hn|]. by eexists.
Qed.

(** The iteration in which building the page raises another exception. *)
Lemma loop_raising_fetch fuel cursor page_count st e :
  attempt env self endpoint page_size (net_calls st) cursor = Raise e →
  is_RequestException e = false →
  ∃ st',
    fetch_all_loop env self endpoint page_size max_pages (S fuel) cursor page_count st
      = ([], Raised e, st')
    ∧ net_calls st' = S (net_calls st).
Proof.
  intros Hfail Hreq. cbn [fetch_all_loop]. rewrite Hno_limit.
  unfold fetch_page, attempt in *.
  pose proof (rate_limited_get_fst env self (request_for self endpoint cursor page_size) st)
    as Hfst.
  pose proof (rate_limited_get_net_calls env self
                (request_for self endpoint cursor page_size) st) as Hn.
  destruct (rate_limited_get env self _ st) as [out st1]. cbn [fst snd] in *.
  subst out. rewrite Hfail, Hreq.
  eexists. split; [reflexivity|exact Hn].
Qed.

(** The iteration in which the page has items that cannot be iterated. *)
Lemma loop_not_iterable fuel cursor page_count st p e :
  page_of_outcome env (transport env (net_calls st)
                         (request_for self endpoint cursor page_size)) = Ok p →
  py_iter (data p) = Raise e →
  ∃ st',
    fetch_all_loop env self endpoint page_size max_pages (S fuel) cursor page_count st
      = ([], Raised e, st')
    ∧ net_calls st' = S (net_calls st).
Proof.
  intros Hp Hiter. cbn [fetch_all_loop]. rewrite Hno_limit.
  pose proof (fetch_page_fst env self endpoint cursor page_size st) as Hf.
  pose proof (fetch_page_net_calls env self endpoint cursor page_size st) as Hn.
  destruct (fetch_page env self endpoint cursor page_size st) as [r st1].
  cbn [fst snd] in *. rewrite Hp in Hf. subst r. rewrite Hiter.
  eexists. split; [reflexivity|exact Hn].
Qed.

End EarlyEnd.

Lemma no_limit_unset : ∀ c, max_pages_reached None c = false.
Proof. done. Qed.

Lemma final_let (items : list json) (x : list json * Exit * State) :
  (let '(rest, ex, st') := x in (items ++ rest, ex, st'))
  = (items ++ yielded x, exit_of x, final x).
Proof. by destruct x as [[rest ex] st']. Qed.

(** X3. A fetch that fails with a [RequestException] in the middle of a
    traversal ends it as the last page would: [fetch_all] yields the items
    of the pages before, leaves its loop by the last-page rule after one
    more fetch attempt, and the failure shows only in the log, followed by
    the record of a page of 0 items. *)
Theorem fetch_all_failure_ends_stream env self endpoint page_size
    (init : list APIResponse) (fuel : nat) (st : State) (e : exn) :
  Forall inner_page init →
  served_then env self endpoint page_size (net_calls st) JNull init
    (λ k c, attempt env self endpoint page_size k c = Raise e) →
  is_RequestException e = true →
  (length init < fuel)%nat →
  let r := fetch_all env self endpoint page_size None fuel st in
  yielded r = concat (map items_of init)
  ∧ exit_of r = BreakLastPage
  ∧ fetches st (final r) = Z.of_nat (length init) + 1
  ∧ ∃ h, history (final r)
         = EvLog (LogFetchedPage (Z.of_nat (length init) + 1) 0)
             :: EvLog (LogRequestFailed e) :: h.
Proof.
  intros Hinner Hserved Hreq Hfuel r. subst r. unfold fetch_all.
  replace fuel with (length init + S (fuel - S (length init)))%nat by lia.
  destruct (loop_after_pages env self endpoint page_size None no_limit_unset init
              (S (fuel - S (length init))) JNull 0 st _ Hinner Hserved)
    as (st1 & c & Hn1 & Hfail & ->).
  destruct (loop_failed_fetch env self endpoint page_size None no_limit_unset
              (fuel - S (length init)) c (0 + Z.of_nat (length init)) st1 e Hfail Hreq)
    as (st' & -> & Hn' & h & Hh & _).
  unfold yielded, exit_of, final, fetches. cbn [fst snd].
  rewrite app_nil_r. repeat split; [lia|]. exists h. by rewrite Hh.
Qed.

Lemma outage_ends_stream :
  let r := fetch_all outage_env demo_client "/items" 2 None 5 (fresh_state 1000) in
  yielded r = [JStr "a"; JStr "b"]
  ∧ exit_of r = BreakLastPage
  ∧ fetches (fresh_state 1000) (final r) = 2
  ∧ ∃ h, history (final r)
         = EvLog (LogFetchedPage 2 0) :: EvLog (LogRequestFailed (HTTPError 503)) :: h.
Proof.
  apply (fetch_all_failure_ends_stream outage_env demo_client "/items" 2 [page1] 5
           (fresh_state 1000) (HTTPError 503)).
  - repeat constructor; eauto.
  - cbn. split; reflexivity.
  - reflexivity.
  - cbn; lia.
Defined.

(** X4. An exception other than a [RequestException] raised while a page is
    built in the middle of a traversal leaves the generator: the items of
    the pages before have been yielded, one more fetch attempt has been
    made, and the caller receives the exception. *)
Theorem fetch_all_raises_mid_stream env self endpoint page_size
    (init : list APIResponse) (fuel : nat) (st : State) (e : exn) :
  Forall inner_page init →
  served_then env self endpoint page_size (net_calls st) JNull init
    (λ k c, attempt env self endpoint page_size k c = Raise e) →
  is_RequestException e = false →
  (length init < fuel)%nat →
  let r := fetch_all env self endpoint page_size None fuel st in
  yielded r = concat (map items_of init)
  ∧ exit_of r = Raised e
  ∧ fetches st (final r) = Z.of_nat (length init) + 1.
Proof.
  intros Hinner Hserved Hreq Hfuel r. subst r. unfold fetch_all.
  replace fuel with (length init + S (fuel - S (length init)))%nat by lia.
  destruct (loop_after_pages env self endpoint page_size None no_limit_unset init
              (S (fuel - S (length init))) JNull 0 st _ Hinner Hserved)
    as (st1 & c & Hn1 & Hfail & ->).
  destruct (loop_raising_fetch env self endpoint page_size None no_limit_unset
              (fuel - S (length init)) c (0 + Z.of_nat (length init)) st1 e Hfail Hreq)
    as (st' & -> & Hn').
  unfold yielded, exit_of, final, fetches. cbn [fst snd].
  rewrite app_nil_r. repeat split. lia.
Qed.

Lemma garbled_page_raises :
  let r := fetch_all garbled_env demo_client "/items" 2 None 5 (fresh_state 1000) in
  yielded r = [JStr "a"; JStr "b"]
  ∧ exit_of r = Raised AttributeError
  ∧ fetches (fresh_state 1000) (final r) = 2.
Proof.
  apply (fetch_all_raises_mid_stream garbled_env demo_client "/items" 2 [page1] 5
           (fresh_state 1000) AttributeError).
  - repeat constructor; eauto.
  - cbn. split; reflexivity.
  - reflexivity.
  - cbn; lia.
Defined.

(** X5. A page that [fetch_page] returns normally but whose [data] is not
    iterable ([null], a boolean, a number) makes [fetch_all] raise
    [TypeError] when it starts to yield that page: nothing of the page is
    yielded and the traversal ends there. *)
Theorem fetch_all_data_not_iterable env self endpoint page_size
    (init : list APIResponse) (fuel : nat) (st : State) (p : APIResponse) :
  Forall inner_page init →
  served_then env self endpoint page_size (net_calls st) JNull init
    (λ k c, page_of_outcome env (transport env k (request_for self endpoint c page_size))
            = Ok p) →
  match data p with
  | JNull | JBool _ | JInt _ | JFloat _ => True
  | _ => False
  end →
  (length init < fuel)%nat →
  let r := fetch_all env self endpoint page_size None fuel st in
  yielded r = concat (map items_of init)
  ∧ exit_of r = Raised TypeError
  ∧ fetches st (final r) = Z.of_nat (length init) + 1.
Proof.
  intros Hinner Hserved Hdata Hfuel r. subst r. unfold fetch_all.
  replace fuel with (length init + S (fuel - S (length init)))%nat by lia.
  destruct (loop_after_pages env self endpoint page_size None no_limit_unset init
              (S (fuel - S (length init))) JNull 0 st _ Hinner Hserved)
    as (st1 & c & Hn1 & Hp & ->).
  assert (py_iter (data p) = Raise TypeError) as Hiter by (by destruct (data p)).
  destruct (loop_not_iterable env self endpoint page_size None no_limit_unset
              (fuel - S (length init)) c (0 + Z.of_nat (length init)) st1 p TypeError
              Hp Hiter) as (st' & -> & Hn').
  unfold yielded, exit_of, final, fetches. cbn [fst snd].
  rewrite app_nil_r. repeat split. lia.
Qed.

Lemma null_data_raises :
  let r := fetch_all null_data_env demo_client "/items" 2 None 5 (fresh_state 1000) in
  yielded r = [JStr "a"; JStr "b"]
  ∧ exit_of r = Raised TypeError
  ∧ fetches (fresh_state 1000) (final r) = 2.
Proof.
  apply (fetch_all_data_not_iterable null_data_env demo_client "/items" 2 [page1] 5
           (fresh_state 1000) (mkAPIResponse JNull (JStr "p3") JNull 999)).
  - repeat constructor; eauto.
  - cbn. split; reflexivity.
  - exact I.
  - cbn; lia.
Defined.

(** ** Limits of a traversal *)

Section Limits.

Context (env : Env) (self : Client) (endpoint : string) (page_size : Z)
        (max_pages : option Z).

(** An iteration makes at most one request. *)
Lemma loop_fetches_le_fuel fuel : ∀ cursor page_count st,
  0 ≤ fetches st (final (fetch_all_loop env self endpoint page_size max_pages fuel
                           cursor page_count st)) ≤ Z.of_nat fuel.
Proof.
  induction fuel as [|fuel IH]; intros cursor page_count st.
  - cbn. unfold fetches. lia.
  - destruct (fetch_all_loop _ _ _ _ _ (S fuel) _ _ _) as [[items ex] st'] eqn:Hrun.
    unfold final, fetches. cbn [snd].
    loop_cases Hrun Hpage.
    + injection Hrun as <- <- <-. cbn. lia.
    + injection Hrun as <- <- <-. cbn. lia.
    + match type of Hrun with
      | context [fetch_all_loop env self endpoint page_size max_pages fuel ?c ?pc ?s] =>
          specialize (IH c pc s);
          destruct (fetch_all_loop env self endpoint page_size max_pages fuel c pc s)
            as [[rest ex1] st1']
      end.
      injection Hrun as <- <- <-.
      unfold final, fetches in IH. cbn [snd] in IH.
      rewrite cooldown_net_calls in IH. cbn [log net_calls] in IH. lia.
    + injection Hrun as <- <- <-. lia.
    + injection Hrun as <- <- <-. lia.
Qed.

(** What a shorter consumption yields is the beginning of what a longer
    one yields. *)
Lemma loop_yields_prefix fuel1 : ∀ fuel2 cursor page_count st,
  (fuel1 ≤ fuel2)%nat →
  yielded (fetch_all_loop env self endpoint page_size max_pages fuel1 cursor page_count st)
  `prefix_of`
  yielded (fetch_all_loop env self endpoint page_size max_pages fuel2 cursor page_count st).
Proof.
  induction fuel1 as [|fuel1 IH]; intros fuel2 cursor page_count st Hle.
  - cbn. apply prefix_nil.
  - destruct fuel2 as [|fuel2]; [lia|].
    cbn [fetch_all_loop].
    destruct (max_pages_reached max_pages page_count); [done|].
    destruct (fetch_page env self endpoint cursor page_size st) as [[result|e] st1]; [|done].
    destruct (py_iter (data result)) as [items|e]; [|done].
    destruct (negb _ || negb _); [done|].
    match goal with
    | |- context [fetch_all_loop env self endpoint page_size max_pages fuel1 ?c ?pc ?s] =>
        specialize (IH fuel2 c pc s ltac:(lia));
        destruct (fetch_all_loop env self endpoint page_size max_pages fuel1 c pc s)
          as [[rest1 ex1] st1'];
        destruct (fetch_all_loop env self endpoint page_size max_pages fuel2 c pc s)
          as [[rest2 ex2] st2']
    end.
    unfold yielded in *. cbn [fst] in *. by apply prefix_app.
Qed.

End Limits.

(** X6. [fetch_all] fetches no further than it is consumed: a consumption
    of [fuel] iterations of its loop makes at most [fuel] requests, and
    what it yields is the beginning of what any longer consumption
    yields. *)
Theorem fetch_all_lazy env self endpoint page_size max_pages (fuel fuel' : nat) (st : State) :
  (fuel ≤ fuel')%nat →
  fetches st (final (fetch_all env self endpoint page_size max_pages fuel st)) ≤ Z.of_nat fuel
  ∧ yielded (fetch_all env self endpoint page_size max_pages fuel st)
    `prefix_of` yielded (fetch_all env self endpoint page_size max_pages fuel' st).
Proof.
  intros Hle. split.
  - apply loop_fetches_le_fuel.
  - by apply loop_yields_prefix.
Qed.

Lemma first_page_of_three :
  fetches (fresh_state 1000)
    (final (fetch_all three_pages_env demo_client "/items" 2 None 1 (fresh_state 1000))) ≤ 1
  ∧ yielded (fetch_all three_pages_env demo_client "/items" 2 None 1 (fresh_state 1000))
    `prefix_of`
    yielded (fetch_all three_pages_env demo_client "/items" 2 None 3 (fresh_state 1000)).
Proof.
  apply (fetch_all_lazy three_pages_env demo_client "/items" 2 None 1 3 (fresh_state 1000)).
  lia.
Defined.

(** X7. A negative [max_pages] is truthy and already reached: [fetch_all]
    then makes no request and yields nothing, and leaves its loop by the
    page-limit test at the first iteration. *)
Theorem fetch_all_negative_max_pages env self endpoint page_size (N : Z) (fuel : nat)
    (st : State) :
  N < 0 →
  fetch_all env self endpoint page_size (Some N) (S fuel) st
  = ([], BreakMaxPages, log (LogReachedMaxPages N) st).
Proof.
  intros HN. unfold fetch_all. cbn [fetch_all_loop]. unfold max_pages_reached.
  assert (negb (N =? 0) && (N <=? 0) = true) as ->; [|done].
  apply andb_true_iff. split; [apply negb_true_iff, Z.eqb_neq|apply Z.leb_le]; lia.
Qed.

Lemma minus_one_page_fetches_nothing :
  fetch_all three_pages_env demo_client "/items" 2 (Some (-1)) 5 (fresh_state 1000)
  = ([], BreakMaxPages, log (LogReachedMaxPages (-1)) (fresh_state 1000)).
Proof.
  apply (fetch_all_negative_max_pages three_pages_env demo_client "/items" 2 (-1) 4
           (fresh_state 1000)).
  lia.
Defined.

(** ** Spacing of the requests of a traversal *)

Section Spacing.

Context (env : Env) (self : Client) (endpoint : string) (page_size : Z)
        (max_pages : option Z).
Hypothesis Hdelay : delays_nonneg env.

(** [fetch_page] keeps the requests spaced; and the gate has recorded the
    request when the traversal goes on after it. *)
Lemma fetch_page_spaced cursor st :
  gate_inv self st →
  let r := fetch_page env self endpoint cursor page_size st in
  spaced (min_interval self) (requests (history r.2))
  ∧ ∀ p, r.1 = Ok p → truthy (next_cursor p) = true → gate_inv self r.2.
Proof.
  intros [Hsp Hlast]. cbn zeta. unfold fetch_page.
  destruct (rate_limited_get_requests env self Hdelay
              (request_for self endpoint cursor page_size) st)
    as (issued & recorded & Hreq & _ & Hgap & Hdone & Hrec).
  destruct (rate_limited_get env self _ st) as [out st1]. cbn [fst snd] in *.
  assert (spaced (min_interval self) (requests (history st1))) as Hsp1.
  { rewrite Hreq. cbn [spaced]. split; [|done].
    destruct (requests (history st)) as [|[[issued1 ?] ?] ?]; [done|]. lra. }
  destruct out as [response|e]; cbn.
  - destruct Hrec as [_ Hrec].
    assert (gate_inv self st1) as Hinv1.
    { split; [done|]. rewrite Hreq, Hrec. lra. }
    destruct (page_of_response env response) as [page|e].
    + cbn [fst snd]. by split.
    + destruct (is_RequestException e); cbn [fst snd]; (split; [done|]).
      * by intros p [= <-].
      * done.
  - destruct (is_RequestException e); cbn [fst snd]; (split; [done|]).
    + by intros p [= <-].
    + done.
Qed.

Lemma spaced_loop fuel : ∀ cursor page_count st,
  gate_inv self st →
  spaced (min_interval self)
    (requests (history (final
       (fetch_all_loop env self endpoint page_size max_pages fuel cursor page_count st)))).
Proof.
  induction fuel as [|fuel IH]; intros cursor page_count st Hinv; [apply Hinv|].
  cbn [fetch_all_loop].
  destruct (max_pages_reached max_pages page_count); [apply Hinv|].
  destruct (fetch_page_spaced cursor st Hinv) as [Hsp Hgo].
  destruct (fetch_page env self endpoint cursor page_size st) as [r st1].
  cbn [fst snd] in *.
  destruct r as [result|e]; [|exact Hsp].
  destruct (py_iter (data result)) as [items|e]; [|exact Hsp].
  destruct (negb (truthy (next_cursor result)) || negb (truthy (data result))) eqn:Hstop;
    [exact Hsp|].
  apply orb_false_iff in Hstop as [Hc _]. apply negb_false_iff in Hc.
  rewrite final_append. apply IH.
  specialize (Hgo result eq_refl Hc).
  destruct (rate_limit_remaining result <? 5); exact Hgo.
Qed.

End Spacing.

(** Requests spaced by [gap] span at least [gap] times their number less
    one. *)
Lemma spaced_span gap rs t :
  spaced gap rs →
  rs ≠ [] →
  (oldest_issue t rs + gap * inject_Z (Z.of_nat (length rs) - 1) <= newest_issue t rs)%Q.
Proof.
  destruct rs as [|[[issued rec] out] rs]; [done|]. intros Hsp _.
  revert issued rec out Hsp. induction rs as [|[[issued1 rec1] out1] rs IH];
    intros issued rec out Hsp.
  - cbn [oldest_issue newest_issue length].
    change (inject_Z (Z.of_nat 1 - 1)) with 0%Q. lra.
  - destruct Hsp as [Hgap Hsp]. specialize (IH issued1 rec1 out1 Hsp).
    cbn [oldest_issue newest_issue length] in *.
    replace (Z.of_nat (S (S (length rs))) - 1) with (Z.of_nat (S (length rs)) - 1 + 1) by lia.
    rewrite inject_Z_plus. change (inject_Z 1) with 1%Q.
    set (n := inject_Z (Z.of_nat (S (length rs)) - 1)) in *. nra.
Qed.

(** X8. Within one traversal the requests respect the rate: any two
    consecutive requests of a run of [fetch_all] are issued at least
    [min_interval] apart, so that a run of [n] requests spans at least
    [(n - 1) * min_interval] from its first request to its last. *)
Theorem fetch_all_spaced env self endpoint page_size max_pages (fuel : nat) (st : State) :
  delays_nonneg env →
  history st = [] →
  let rs := requests (history (final
              (fetch_all env self endpoint page_size max_pages fuel st))) in
  spaced (min_interval self) rs
  ∧ (rs ≠ [] →
     (oldest_issue 0 rs + min_interval self * inject_Z (Z.of_nat (length rs) - 1)
      <= newest_issue 0 rs)%Q).
Proof.
  intros Hdelay Hfresh rs.
  assert (spaced (min_interval self) rs) as Hsp.
  { apply spaced_loop; [done|]. unfold gate_inv. by rewrite Hfresh. }
  split; [done|]. by apply spaced_span.
Qed.

Lemma three_pages_spaced :
  let rs := requests (history (final
              (fetch_all three_pages_env demo_client "/items" 2 None 5 (fresh_state 1000)))) in
  spaced (min_interval demo_client) rs
  ∧ (rs ≠ [] →
     (oldest_issue 0 rs + min_interval demo_client * inject_Z (Z.of_nat (length rs) - 1)
      <= newest_issue 0 rs)%Q).
Proof.
  apply (fetch_all_spaced three_pages_env demo_client "/items" 2 None 5 (fresh_state 1000)).
  - apply millisecond_delays_nonneg.
  - reflexivity.
Defined.

(** ** The cursors of a traversal *)

Section Cursors.

Context (env : Env) (self : Client) (endpoint : string) (page_size : Z)
        (max_pages : option Z).

Lemma rate_limited_get_exchanges req st :
  let r := rate_limited_get env self req st in
  exchanges (history r.2) = (req, r.1) :: exchanges (history st).
Proof.
  cbn zeta. unfold rate_limited_get. cbn.
  destruct (Qltb _ _); cbn; by destruct (transport env (net_calls st) req).
Qed.

Lemma fetch_page_exchanges cursor st :
  let r := fetch_page env self endpoint cursor page_size st in
  ∃ out,
    exchanges (history r.2)
      = (request_for self endpoint cursor page_size, out) :: exchanges (history st)
    ∧ r.1 = page_of_outcome env out.
Proof.
  cbn zeta. unfold fetch_page, page_of_outcome.
  pose proof (rate_limited_get_exchanges (request_for self endpoint cursor page_size) st)
    as Hx. cbn zeta in Hx.
  destruct (rate_limited_get env self _ st) as [out st1]. cbn [fst snd] in Hx.
  exists out. destruct (out ≫= page_of_response env) as [page|e]; [done|].
  by destruct (is_RequestException e).
Qed.

Lemma chain_fetch_page cursor st :
  chain_inv env self endpoint page_size cursor st →
  let r := fetch_page env self endpoint cursor page_size st in
  chained env (exchanges (history r.2))
  ∧ Forall (λ x, ∃ c, x.1 = request_for self endpoint c page_size) (exchanges (history r.2))
  ∧ ∀ p, r.1 = Ok p → truthy (next_cursor p) = true →
         chain_inv env self endpoint page_size (next_cursor p) r.2.
Proof.
  intros (Hch & Hall & Hcur). cbn zeta.
  destruct (fetch_page_exchanges cursor st) as (out & Hx & Hpage).
  destruct (fetch_page env self endpoint cursor page_size st) as [r st1].
  cbn [fst snd] in *.
  assert (chained env (exchanges (history st1))) as Hch1.
  { rewrite Hx. cbn [chained]. split; [|done].
    destruct (exchanges (history st)) as [|[req1 out1] xs].
    - unfold request_for. cbn. by rewrite Hcur.
    - destruct Hcur as (p1 & Hp & -> & Ht). exists p1. split; [done|].
      unfold request_for. cbn. by rewrite Ht. }
  assert (Forall (λ x, ∃ c, x.1 = request_for self endpoint c page_size)
            (exchanges (history st1))) as Hall1.
  { rewrite Hx. apply Forall_cons. split; [by exists cursor|done]. }
  split; [done|]. split; [done|].
  intros p2 -> Ht. unfold chain_inv. cbn zeta. rewrite Hx in *.
  split; [done|]. split; [done|]. by exists p2.
Qed.

Lemma chain_loop fuel : ∀ cursor page_count st,
  chain_inv env self endpoint page_size cursor st →
  let xs := exchanges (history (final
              (fetch_all_loop env self endpoint page_size max_pages fuel cursor
                 page_count st))) in
  chained env xs ∧ Forall (λ x, ∃ c, x.1 = request_for self endpoint c page_size) xs.
Proof.
  induction fuel as [|fuel IH]; intros cursor page_count st Hinv; cbn zeta.
  - cbn. destruct Hinv as (? & ? & _). by split.
  - cbn [fetch_all_loop].
    destruct (max_pages_reached max_pages page_count).
    { cbn. destruct Hinv as (? & ? & _). by split. }
    destruct (chain_fetch_page cursor st Hinv) as (Hch & Hall & Hgo).
    destruct (fetch_page env self endpoint cursor page_size st) as [r st1].
    cbn [fst snd] in *.
    destruct r as [result|e]; [|by split].
    destruct (py_iter (data result)) as [items|e]; [|by split].
    destruct (negb (truthy (next_cursor result)) || negb (truthy (data result))) eqn:Hstop;
      [by split|].
    apply orb_false_iff in Hstop as [Hc _]. apply negb_false_iff in Hc.
    rewrite final_append. apply IH.
    specialize (Hgo result eq_refl Hc).
    destruct (rate_limit_remaining result <? 5); exact Hgo.
Qed.

End Cursors.

(** X9. A traversal follows the cursors: the first request of a run of
    [fetch_all] carries no cursor, every later request carries the cursor
    of the page made of the answer to the request before it, and all of
    them go to the same URL with [limit = page_size]. *)
Theorem fetch_all_follows_cursors env self endpoint page_size max_pages (fuel : nat)
    (st : State) :
  history st = [] →
  let xs := exchanges (history (final
              (fetch_all env self endpoint page_size max_pages fuel st))) in
  chained env xs
  ∧ Forall (λ x, ∃ c, x.1 = request_for self endpoint c page_size) xs.
Proof.
  intros Hfresh. apply chain_loop. unfold chain_inv. rewrite Hfresh. cbn.
  by repeat split.
Qed.

Lemma three_pages_cursors :
  let xs := exchanges (history (final
              (fetch_all three_pages_env demo_client "/items" 2 None 5 (fresh_state 1000)))) in
  chained three_pages_env xs
  ∧ Forall (λ x, ∃ c, x.1 = request_for demo_client "/items" c 2) xs.
Proof.
  apply (fetch_all_follows_cursors three_pages_env demo_client "/items" 2 None 5
           (fresh_state 1000)).
  reflexivity.
Defined.

(** ** The gate *)

(** X10. One passage through the gate sleeps at most once, and, when the
    recorded time is not ahead of the clock, for no longer than
    [min_interval]; it does not sleep at all when [min_interval] has
    already passed since the recorded time. The recorded time stays behind
    the clock. *)
Theorem gate_sleeps_at_most_interval env self req (st : State) :
  delays_nonneg env →
  (last_request_time st <= now st)%Q →
  let r := rate_limited_get env self req st in
  (sleeps (history r.2) = sleeps (history st)
   ∨ ∃ d, sleeps (history r.2) = d :: sleeps (history st)
          ∧ (0 < d)%Q ∧ (d <= min_interval self)%Q)
  ∧ (last_request_time r.2 <= now r.2)%Q
  ∧ ((min_interval self <= now st - last_request_time st)%Q →
     sleeps (history r.2) = sleeps (history st)).
Proof.
  intros Hdelay Hlast.
  pose proof (Hdelay (ticks st)) as H0.
  pose proof (Hdelay (S (ticks st))) as H1.
  pose proof (Hdelay (S (S (ticks st)))) as H2.
  pose proof (Hdelay (S (S (S (ticks st))))) as H3.
  cbn zeta. unfold rate_limited_get. cbn.
  destruct (Qltb _ _) eqn:Hlt; cbn;
    [apply Qltb_true in Hlt | apply Qltb_false in Hlt];
    destruct (transport env (net_calls st) req) as [response|e]; cbn.
  - split; [right; eexists; split; [reflexivity|]; split; lra|]. split; [lra|]. intros ?. lra.
  - split; [right; eexists; split; [reflexivity|]; split; lra|]. split; [lra|]. intros ?. lra.
  - split; [by left|]. split; [lra|]. done.
  - split; [by left|]. split; [lra|]. done.
Qed.

Lemma second_request_waits :
  let st := (rate_limited_get dropped_env slow_client items_request (fresh_state 1000)).2 in
  let r := rate_limited_get dropped_env slow_client items_request st in
  (sleeps (history r.2) = sleeps (history st)
   ∨ ∃ d, sleeps (history r.2) = d :: sleeps (history st)
          ∧ (0 < d)%Q ∧ (d <= min_interval slow_client)%Q)
  ∧ (last_request_time r.2 <= now r.2)%Q
  ∧ ((min_interval slow_client <= now st - last_request_time st)%Q →
     sleeps (history r.2) = sleeps (history st)).
Proof.
  apply (gate_sleeps_at_most_interval dropped_env slow_client items_request).
  - apply millisecond_delays_nonneg.
  - vm_compute. discriminate.
Defined.

(** ** The requests of a fan-out *)

Section FanOutRequests.

Context (env : Env) (self : Client).

Lemma fetch_parallel_run_requests order : ∀ results st,
  let r := fetch_parallel_run env self order results st in
  net_calls r.2 = (net_calls st + length order)%nat
  ∧ map fst (exchanges (history r.2))
    = rev (map (λ ep, request_for self ep JNull 100) order)
      ++ map fst (exchanges (history st)).
Proof.
  induction order as [|ep order IH]; intros results st; cbn zeta.
  - cbn. split; [lia|done].
  - rewrite fetch_parallel_run_cons. cbn zeta.
    pose proof (fetch_page_net_calls env self ep JNull 100 st) as Hn.
    destruct (fetch_page_exchanges env self ep 100 JNull st) as (out & Hx & _).
    destruct (fetch_page env self ep JNull 100 st) as [r st1]. cbn [fst snd] in *.
    match goal with
    | |- context [fetch_parallel_run env self order ?m ?s] =>
        destruct (IH m s) as [IHn IHx]
    end.
    split.
    + rewrite IHn. destruct r; cbn [log net_calls]; rewrite Hn; cbn; lia.
    + rewrite IHx. cbn [map rev]. rewrite <- app_assoc. f_equal.
      destruct r; cbn [log history exchanges]; by rewrite Hx.
Qed.

End FanOutRequests.

(** X11. [fetch_parallel] asks for first pages only: with a positive number
    of workers it makes exactly one request per listed endpoint, duplicates
    included, each without cursor and with [limit = 100], and never a
    request for the page a cursor points to. With a number of workers that
    is not positive it raises [ValueError] before any request. *)
Theorem fetch_parallel_requests env self (order : list string) max_workers (st : State) :
  (workers self max_workers ≤ 0 →
   fetch_parallel env self order max_workers st = (Raise ValueError, st))
  ∧ (0 < workers self max_workers →
     let r := fetch_parallel env self order max_workers st in
     fetches st r.2 = Z.of_nat (length order)
     ∧ map fst (exchanges (history r.2))
       = rev (map (λ ep, request_for self ep JNull 100) order)
         ++ map fst (exchanges (history st))).
Proof.
  split.
  - intros Hw. unfold fetch_parallel.
    by destruct (workers self max_workers <=? 0) eqn:Hle; [|apply Z.leb_gt in Hle; lia].
  - intros Hw. cbn zeta. rewrite fetch_parallel_ok by done. cbn [snd].
    destruct (fetch_parallel_run_requests env self order ∅ st) as [Hn Hx].
    split; [unfold fetches; lia|done].
Qed.

Lemma catalogue_requests :
  let r := fetch_parallel catalogue_env demo_client ["/orders"; "/users"; "/orders"] None
             (fresh_state 1000) in
  fetches (fresh_state 1000) r.2 = 3
  ∧ map fst (exchanges (history r.2))
    = [request_for demo_client "/orders" JNull 100;
       request_for demo_client "/users" JNull 100;
       request_for demo_client "/orders" JNull 100].
Proof.
  destruct (fetch_parallel_requests catalogue_env demo_client
              ["/orders"; "/users"; "/orders"] None (fresh_state 1000)) as [_ Hpos].
  apply Hpos. reflexivity.
Defined.

(** ** Slashes in URLs *)

Lemma rstrip_slash_app_slash s : rstrip_slash (s ++ "/") = rstrip_slash s.
Proof.
  induction s as [|c s IH]; [reflexivity|].
  change (rstrip_slash (String c s ++ "/"))
    with (rstrip_slash (String c (s ++ "/"))).
  cbn [rstrip_slash]. by rewrite IH.
Qed.

Lemma rstrip_slash_no_trailing s : no_trailing_slash (rstrip_slash s).
Proof.
  induction s as [|c s IH]; [done|].
  cbn [rstrip_slash]. destruct (rstrip_slash s) as [|c' t] eqn:Hr.
  - destruct (Ascii.eqb c "/") eqn:Hc; [done|]. cbn. by apply Ascii.eqb_neq.
  - exact IH.
Qed.

Lemma lstrip_slash_no_leading s : no_leading_slash (lstrip_slash s).
Proof.
  induction s as [|c s IH]; [done|].
  cbn [lstrip_slash]. destruct (Ascii.eqb c "/") eqn:Hc.
  - apply Ascii.eqb_eq in Hc. by subst c.
  - apply Ascii.eqb_neq in Hc.
    destruct c as [[] [] [] [] [] [] [] []]; try done.
Qed.

(** X12. Slashes at the joint of a URL do not count: a client built from a
    base URL with one more trailing slash is the same client, an endpoint
    with one more leading slash gives the same request, and the URL of
    every request is the base URL, which ends with no slash, then one
    slash, then a path that starts with none. *)
Theorem url_joint_normalised (base : string) api_key max_workers requests_per_second :
  PaginatedAPIClient_init (base ++ "/") api_key max_workers requests_per_second
  = PaginatedAPIClient_init base api_key max_workers requests_per_second
  ∧ ∀ self,
      PaginatedAPIClient_init base api_key max_workers requests_per_second = Ok self →
      ∀ endpoint cursor page_size,
        request_for self ("/" ++ endpoint) cursor page_size
        = request_for self endpoint cursor page_size
        ∧ ∃ path,
            req_url (request_for self endpoint cursor page_size)
            = (base_url self ++ "/" ++ path)%string
            ∧ no_trailing_slash (base_url self)
            ∧ no_leading_slash path.
Proof.
  split.
  - unfold PaginatedAPIClient_init. by rewrite rstrip_slash_app_slash.
  - intros self Hinit endpoint cursor page_size. split; [reflexivity|].
    exists (lstrip_slash endpoint). split; [reflexivity|].
    split; [|apply lstrip_slash_no_leading].
    unfold PaginatedAPIClient_init in Hinit.
    destruct (Qeq_bool requests_per_second 0); [done|].
    injection Hinit as <-. apply rstrip_slash_no_trailing.
Qed.

Lemma demo_url_joint :
  request_for demo_client ("/" ++ "items") (JStr "p2") 100
  = request_for demo_client "items" (JStr "p2") 100
  ∧ ∃ path,
      req_url (request_for demo_client "items" (JStr "p2") 100)
      = (base_url demo_client ++ "/" ++ path)%string
      ∧ no_trailing_slash (base_url demo_client)
      ∧ no_leading_slash path.
Proof.
  destruct (url_joint_normalised "https://api.example.org//" None 5 10) as [_ Hurl].
  apply (Hurl demo_client eq_refl "items" (JStr "p2") 100).
Defined.

(** * Batch validation *)

Section BatchFacts.

Import ValidationSchema.

Context {record validated : Type} (model_class : record → @Construction validated).

Lemma omap_cons {A B} (f : A → option B) (x : A) (l : list A) :
  omap f (x :: l) = from_option (λ y, [y]) [] (f x) ++ omap f l.
Proof. cbn. by destruct (f x). Qed.

Lemma validate_loop_partition records : ∀ result,
  Forall (validates_or_fails model_class) records →
  validate_loop model_class records result
  = Ok (mkValidationResult
          (valid result ++ omap (accepted model_class) records)
          (invalid result ++ omap (rejected model_class) records)).
Proof.
  induction records as [|r records IH]; intros result Hall.
  - cbn. rewrite !app_nil_r. by destruct result.
  - apply Forall_cons in Hall as [Hr Hall].
    rewrite !omap_cons. cbn [validate_loop].
    unfold validates_or_fails in Hr. unfold accepted at 1. unfold rejected at 1.
    destruct (model_class r) as [v|[|msg msgs]|e]; [| | |done];
      rewrite IH by done; cbn [valid invalid from_option app]; by rewrite <- ?app_assoc.
Qed.

Lemma omap_partition_length records :
  Forall (validates_or_fails model_class) records →
  (length (omap (accepted model_class) records)
   + length (omap (rejected model_class) records))%nat = length records.
Proof.
  induction 1 as [|r records Hr _ IH]; [done|].
  rewrite !omap_cons, !length_app. cbn [length].
  unfold validates_or_fails in Hr. unfold accepted at 1. unfold rejected at 1.
  destruct (model_class r) as [v|[|msg msgs]|e]; try done; cbn; lia.
Qed.

Lemma validate_loop_raises pre : ∀ r post e result,
  Forall (validates_or_fails model_class) pre →
  model_class r = OtherError e →
  validate_loop model_class (pre ++ r :: post) result = Raise e.
Proof.
  induction pre as [|r0 pre IH]; intros r post e result Hall Hr.
  - cbn. by rewrite Hr.
  - apply Forall_cons in Hall as [Hr0 Hall]. cbn [app validate_loop].
    unfold validates_or_fails in Hr0.
    destruct (model_class r0); [by apply IH..|done].
Qed.

End BatchFacts.

(** X13. When no record makes the model raise anything but
    [ValidationError], [validate_batch] sorts the records into two lists
    that keep their order: the validated objects of the records that
    validate, and the records that do not, each with the message of its
    first error, or "Unknown error" when there is none. No record is lost:
    the two lists have as many elements as the batch. *)
Theorem validate_batch_partition {record validated : Type}
    (model_class : record → @ValidationSchema.Construction validated)
    (records : list record) :
  Forall (ValidationSchema.validates_or_fails model_class) records →
  ∃ result,
    ValidationSchema.validate_batch model_class records = Ok result
    ∧ ValidationSchema.valid result = omap (ValidationSchema.accepted model_class) records
    ∧ ValidationSchema.invalid result = omap (ValidationSchema.rejected model_class) records
    ∧ (length (ValidationSchema.valid result) + length (ValidationSchema.invalid result))%nat
      = length records.
Proof.
  intros Hall. unfold ValidationSchema.validate_batch.
  rewrite validate_loop_partition by done. eexists. split; [reflexivity|].
  cbn. repeat split. by apply omap_partition_length.
Qed.

Lemma toy_batch_partition :
  ∃ result,
    ValidationSchema.validate_batch ValidationSchema.toy_model
      [("Widget", 19); ("", 9); ("Gadget", -5)] = Ok result
    ∧ ValidationSchema.valid result = [("Widget", 19)]
    ∧ ValidationSchema.invalid result
      = [(("", 9), "Name cannot be empty or whitespace"); (("Gadget", -5), "Unknown error")]
    ∧ (length (ValidationSchema.valid result) + length (ValidationSchema.invalid result))%nat
      = 3%nat.
Proof.
  apply (validate_batch_partition ValidationSchema.toy_model
           [("Widget", 19); ("", 9); ("Gadget", -5)]).
  repeat constructor.
Defined.

(** X14. An exception other than [ValidationError] raised for one record
    leaves [validate_batch]: what the records before it gave is lost and
    the records after it are not looked at. *)
Theorem validate_batch_raises {record validated : Type}
    (model_class : record → @ValidationSchema.Construction validated)
    (pre post : list record) (r : record) (e : exn) :
  Forall (ValidationSchema.validates_or_fails model_class) pre →
  model_class r = ValidationSchema.OtherError e →
  ValidationSchema.validate_batch model_class (pre ++ r :: post) = Raise e.
Proof. intros Hpre Hr. by apply validate_loop_raises. Qed.

Lemma strict_batch_raises :
  ValidationSchema.validate_batch ValidationSchema.strict_model
    ([("Widget", 19); ("", 9)] ++ ("Free", 0) :: [("Gadget", 5)]) = Raise TypeError.
Proof.
  apply (validate_batch_raises ValidationSchema.strict_model
           [("Widget", 19); ("", 9)] [("Gadget", 5)] ("Free", 0) TypeError).
  - repeat constructor.
  - reflexivity.
Defined.

Section RateFacts.

Import ValidationSchema.

Lemma quotient_ge (a : Z) (b : positive) (v t : nat) :
  (0 < t)%nat →
  (a # b <= inject_Z (Z.of_nat v) / inject_Z (Z.of_nat t))%Q
  ↔ a * Z.of_nat t ≤ Z.of_nat v * Z.pos b.
Proof.
  intros Ht. destruct t as [|n]; [lia|].
  rewrite Nat2Z.inj_succ, <- Zpos_P_of_succ_nat.
  unfold Qle, Qdiv, Qmult, Qinv, inject_Z. cbn.
  rewrite ?Pos2Z.inj_mul. cbn. lia.
Qed.

Lemma Qle_bool_false x y : Qle_bool x y = false ↔ ¬ (x <= y)%Q.
Proof.
  rewrite <- Qle_bool_iff. destruct (Qle_bool x y); split; try done; by intros [].
Qed.

End RateFacts.

(** X15. The quality of a result is read off the two counts: [HIGH] when
    the batch is not empty and at least 95 in 100 records are valid,
    [MEDIUM] when it is not empty and at least 80 but fewer than 95 in 100
    are valid, [LOW] otherwise; an empty batch has success rate 0 and is
    [LOW]. *)
Theorem quality_score_thresholds {record validated : Type}
    (self : @ValidationSchema.ValidationResult record validated) :
  let v := Z.of_nat (length (ValidationSchema.valid self)) in
  let t := Z.of_nat (length (ValidationSchema.valid self)
                     + length (ValidationSchema.invalid self)) in
  (ValidationSchema.quality_score self = ValidationSchema.HIGH ↔ 0 < t ∧ 95 * t ≤ 100 * v)
  ∧ (ValidationSchema.quality_score self = ValidationSchema.MEDIUM
     ↔ 0 < t ∧ 80 * t ≤ 100 * v < 95 * t)
  ∧ (ValidationSchema.quality_score self = ValidationSchema.LOW
     ↔ t = 0 ∨ 100 * v < 80 * t)
  ∧ (t = 0 → ValidationSchema.success_rate self = 0%Q).
Proof.
  intros v t. subst v t.
  unfold ValidationSchema.quality_score, ValidationSchema.success_rate.
  set (nv := length (ValidationSchema.valid self)).
  set (nt := (nv + length (ValidationSchema.invalid self))%nat).
  destruct (0 <? nt)%nat eqn:Hpos.
  - apply Nat.ltb_lt in Hpos.
    pose proof (quotient_ge 95 100 nv nt Hpos) as H95.
    pose proof (quotient_ge 80 100 nv nt Hpos) as H80.
    change (95 # 100)%Q with 0.95%Q in H95. change (80 # 100)%Q with 0.80%Q in H80.
    destruct (Qle_bool 0.95 _) eqn:Hh.
    + apply Qle_bool_iff, H95 in Hh.
      repeat split; try done; try lia; try (intros; left; lia); try (intros; right; lia).
    + apply Qle_bool_false in Hh. rewrite H95 in Hh.
      destruct (Qle_bool 0.80 _) eqn:Hm.
      * apply Qle_bool_iff, H80 in Hm.
        repeat split; try done; try lia; try (intros; left; lia); try (intros; right; lia).
      * apply Qle_bool_false in Hm. rewrite H80 in Hm.
        repeat split; try done; try lia; try (intros; left; lia); try (intros; right; lia).
  - apply Nat.ltb_ge in Hpos. cbn.
    repeat split; try done; try lia; try (intros; left; lia); try (intros; right; lia).
Qed.

Lemma nineteen_of_twenty_is_high :
  ValidationSchema.quality_score
    (ValidationSchema.mkValidationResult (replicate 19 ("Widget", 1))
       [(("", 1), "Name cannot be empty or whitespace")])
  = ValidationSchema.HIGH.
Proof.
  destruct (quality_score_thresholds
              (ValidationSchema.mkValidationResult (replicate 19 ("Widget", 1))
                 [(("", 1), "Name cannot be empty or whitespace")]))
    as [[_ Hhigh] _].
  apply Hhigh. cbn. lia.
Defined.

(** * The HTTP scraper *)

Section ScraperFacts.

Import BasicScraper.

Context (env : Env) (self : Scraper).
Hypothesis Hraises : raises_request_only env.
Hypothesis Hdelay : (0 <= rate_limit_delay self)%Q.

Lemma sleep_ok w :
  sleep env (rate_limit_delay self) w
  = (Ok tt,
     mkWorld (clock w + rate_limit_delay self + delay env (steps w))%Q (S (steps w))
             (gets w) (choices w) (EvSleep (rate_limit_delay self) :: trace w)).
Proof.
  unfold sleep. destruct (Qltb (rate_limit_delay self) 0) eqn:Hneg; [|done].
  apply Qltb_true in Hneg. lra.
Qed.

(** One call of [fetch]: one request; an item and one sleep when the
    request is answered without error status, nothing otherwise. *)
Lemma fetch_outcome path w :
  let r := fetch env self path w in
  let out := session_get env (gets w) (url_of self path)
               (nth (choice env (choices w) mod length USER_AGENTS) USER_AGENTS "") in
  gets r.2 = S (gets w)
  ∧ if answered_ok out
    then (∃ item, r.1 = Ok (Some item) ∧ url item = url_of self path)
         ∧ slept (trace r.2) = rate_limit_delay self :: slept (trace w)
    else r.1 = Ok None ∧ slept (trace r.2) = slept (trace w).
Proof.
  cbn zeta. unfold fetch, get, get_user_agent. cbn.
  destruct (session_get env (gets w) _ _) as [response|e] eqn:Hout; cbn.
  - unfold raise_for_status.
    destruct ((400 <=? status_code response) && (status_code response <? 600)); cbn.
    + done.
    + rewrite sleep_ok. cbn. split; [done|]. split; [by eexists|done].
  - unfold except_request. rewrite (Hraises _ _ _ _ Hout). by cbn.
Qed.

(** The clock over one call of [fetch]. *)
Lemma fetch_clock path w :
  (∀ k, (0 <= delay env k)%Q) →
  let r := fetch env self path w in
  let out := session_get env (gets w) (url_of self path)
               (nth (choice env (choices w) mod length USER_AGENTS) USER_AGENTS "") in
  (clock w + (if answered_ok out then rate_limit_delay self else 0) <= clock r.2)%Q.
Proof.
  intros Hd. cbn zeta. unfold fetch, get, get_user_agent. cbn.
  pose proof (Hd (steps w)). pose proof (Hd (S (steps w))).
  pose proof (Hd (S (S (steps w)))).
  destruct (session_get env (gets w) _ _) as [response|e] eqn:Hout; cbn.
  - unfold raise_for_status.
    destruct ((400 <=? status_code response) && (status_code response <? 600)); cbn.
    + lra.
    + rewrite sleep_ok. cbn. lra.
  - unfold except_request. rewrite (Hraises _ _ _ _ Hout). cbn. lra.
Qed.

Context (good : string → bool).
Hypothesis Hgood : decided_by_url env good.

Lemma fetch_multiple_loop_spec paths : ∀ results w,
  let r := fetch_multiple_loop env self paths results w in
  ∃ items,
    r.1 = Ok (results ++ items)
    ∧ map url items = List.filter good (map (url_of self) paths)
    ∧ gets r.2 = (gets w + length paths)%nat
    ∧ slept (trace r.2) = replicate (length items) (rate_limit_delay self) ++ slept (trace w)
    ∧ ((∀ k, (0 <= delay env k)%Q) →
       (clock w + inject_Z (Z.of_nat (length items)) * rate_limit_delay self
        <= clock r.2)%Q).
Proof.
  induction paths as [|path paths IH]; intros results w; cbn zeta.
  - exists []. cbn [fetch_multiple_loop fst snd map List.filter length replicate app].
    rewrite app_nil_r. repeat split; [lia|]. intros _.
    change (inject_Z (Z.of_nat 0)) with 0%Q. lra.
  - cbn [fetch_multiple_loop].
    pose proof (fetch_outcome path w) as Hf. pose proof (fetch_clock path w) as Hc.
    cbn zeta in Hf, Hc. rewrite Hgood in Hf, Hc.
    destruct (fetch env self path w) as [r w1]. cbn [fst snd] in *.
    destruct Hf as [Hgets Hf]. cbn [map List.filter].
    destruct (good (url_of self path)).
    + destruct Hf as [(item & -> & Hurl) Hslept].
      destruct (IH (results ++ [item]) w1) as (items & Hr & Hurls & Hg & Hs & Hclock).
      exists (item :: items). rewrite Hr, <- app_assoc. split; [done|].
      cbn [map length replicate]. rewrite Hurl, Hurls. split; [done|].
      split; [lia|]. split.
      * rewrite Hs, Hslept. cbn. f_equal.
        change (rate_limit_delay self :: slept (trace w))
          with ([rate_limit_delay self] ++ slept (trace w)).
        rewrite app_assoc. f_equal.
        clear. induction (length items) as [|n IHn]; [done|]. cbn. by rewrite IHn.
      * intros Hd. specialize (Hclock Hd). specialize (Hc Hd). cbv beta iota in Hc.
        rewrite Nat2Z.inj_succ. unfold Z.succ. rewrite inject_Z_plus.
        change (inject_Z 1) with 1%Q.
        generalize dependent (inject_Z (Z.of_nat (length items))). intros n ?. lra.
    + destruct Hf as [-> Hslept].
      destruct (IH results w1) as (items & Hr & Hurls & Hg & Hs & Hclock).
      exists items. split; [done|]. split; [done|]. cbn [length]. split; [lia|]. split.
      * by rewrite Hs, Hslept.
      * intros Hd. specialize (Hclock Hd). specialize (Hc Hd). cbv beta iota in Hc. lra.
Qed.

End ScraperFacts.

(** X16. When the session raises nothing but [RequestException]s and the
    delay is not negative, [fetch_multiple] makes one request per path and
    returns, in the order of the paths, the items of exactly those whose
    request is answered without error status; a path that fails is left
    out and the paths after it are still fetched. *)
Theorem fetch_multiple_keeps_successes (env : BasicScraper.Env) (self : BasicScraper.Scraper)
    (good : string → bool) (paths : list string) (w : BasicScraper.World) :
  BasicScraper.raises_request_only env →
  (0 <= BasicScraper.rate_limit_delay self)%Q →
  BasicScraper.decided_by_url env good →
  let r := BasicScraper.fetch_multiple env self paths w in
  ∃ items,
    r.1 = Ok items
    ∧ map BasicScraper.url items = List.filter good (map (BasicScraper.url_of self) paths)
    ∧ BasicScraper.gets r.2 = (BasicScraper.gets w + length paths)%nat.
Proof.
  intros Hraises Hdelay Hgood. cbn zeta. unfold BasicScraper.fetch_multiple.
  destruct (fetch_multiple_loop_spec env self Hraises Hdelay good Hgood paths [] w)
    as (items & Hr & Hurls & Hg & _).
  by exists items.
Qed.

(** X17. [fetch] sleeps only after a request that succeeded: a run of
    [fetch_multiple] sleeps [rate_limit_delay] once for each item it
    returns and not at all for the paths that fail, and so takes at least
    as many times [rate_limit_delay] as it returns items. *)
Theorem fetch_multiple_sleeps (env : BasicScraper.Env) (self : BasicScraper.Scraper)
    (good : string → bool) (paths : list string) (w : BasicScraper.World) :
  BasicScraper.raises_request_only env →
  (0 <= BasicScraper.rate_limit_delay self)%Q →
  BasicScraper.decided_by_url env good →
  (∀ k, (0 <= BasicScraper.delay env k)%Q) →
  let r := BasicScraper.fetch_multiple env self paths w in
  let n := length (List.filter good (map (BasicScraper.url_of self) paths)) in
  BasicScraper.slept (BasicScraper.trace r.2)
  = replicate n (BasicScraper.rate_limit_delay self)
    ++ BasicScraper.slept (BasicScraper.trace w)
  ∧ (BasicScraper.clock w + inject_Z (Z.of_nat n) * BasicScraper.rate_limit_delay self
     <= BasicScraper.clock r.2)%Q.
Proof.
  intros Hraises Hdelay Hgood Hd. cbn zeta. unfold BasicScraper.fetch_multiple.
  destruct (fetch_multiple_loop_spec env self Hraises Hdelay good Hgood paths [] w)
    as (items & _ & Hurls & _ & Hs & Hclock).
  rewrite <- Hurls, length_map. split; [done|]. by apply Hclock.
Qed.

Lemma site_raises_request_only : BasicScraper.raises_request_only BasicScraper.site_env.
Proof.
  intros k u ua e. cbn. unfold BasicScraper.site.
  by repeat destruct (String.eqb _ _).
Qed.

Lemma site_decided_by_url :
  BasicScraper.decided_by_url BasicScraper.site_env BasicScraper.site_good.
Proof.
  intros k u ua. cbn. unfold BasicScraper.site, BasicScraper.site_good.
  by repeat destruct (String.eqb _ _).
Qed.

Lemma site_batch :
  let r := BasicScraper.fetch_multiple BasicScraper.site_env BasicScraper.httpbin
             ["/json"; "/missing"; "html"] BasicScraper.start in
  ∃ items,
    r.1 = Ok items
    ∧ map BasicScraper.url items = ["https://httpbin.org/json"; "https://httpbin.org/html"]
    ∧ BasicScraper.gets r.2 = 3%nat.
Proof.
  apply (fetch_multiple_keeps_successes BasicScraper.site_env BasicScraper.httpbin
           BasicScraper.site_good ["/json"; "/missing"; "html"] BasicScraper.start).
  - exact site_raises_request_only.
  - cbn. lra.
  - exact site_decided_by_url.
Defined.

Lemma site_batch_sleeps :
  let r := BasicScraper.fetch_multiple BasicScraper.site_env BasicScraper.httpbin
             ["/json"; "/missing"; "html"] BasicScraper.start in
  BasicScraper.slept (BasicScraper.trace r.2) = [1%Q; 1%Q]
  ∧ (BasicScraper.clock BasicScraper.start + inject_Z 2 * 1 <= BasicScraper.clock r.2)%Q.
Proof.
  apply (fetch_multiple_sleeps BasicScraper.site_env BasicScraper.httpbin
           BasicScraper.site_good ["/json"; "/missing"; "html"] BasicScraper.start).
  - exact site_raises_request_only.
  - cbn. lra.
  - exact site_decided_by_url.
  - intros k. cbn. lra.
Defined.

(** X18. With a negative [rate_limit_delay] a fetch that succeeds does not
    return: the request is made and answered, then [time.sleep] raises
    [ValueError], which is not a [RequestException] and leaves [fetch]. *)
Theorem fetch_negative_delay (env : BasicScraper.Env) (self : BasicScraper.Scraper)
    (path : string) (w : BasicScraper.World) :
  (BasicScraper.rate_limit_delay self < 0)%Q →
  BasicScraper.answered_ok
    (BasicScraper.session_get env (BasicScraper.gets w) (BasicScraper.url_of self path)
       (nth (BasicScraper.choice env (BasicScraper.choices w)
             mod length BasicScraper.USER_AGENTS) BasicScraper.USER_AGENTS "")) = true →
  let r := BasicScraper.fetch env self path w in
  r.1 = Raise ValueError
  ∧ BasicScraper.gets r.2 = S (BasicScraper.gets w)
  ∧ BasicScraper.slept (BasicScraper.trace r.2) = BasicScraper.slept (BasicScraper.trace w).
Proof.
  intros Hneg Hok. cbn zeta.
  unfold BasicScraper.fetch, BasicScraper.get, BasicScraper.get_user_agent. cbn.
  unfold BasicScraper.answered_ok in Hok.
  destruct (BasicScraper.session_get env _ _ _) as [response|e]; [|done]. cbn.
  unfold BasicScraper.raise_for_status.
  destruct ((400 <=? BasicScraper.status_code response)
            && (BasicScraper.status_code response <? 600)); [done|]. cbn.
  unfold BasicScraper.sleep.
  assert (Qltb (BasicScraper.rate_limit_delay self) 0 = true) as ->.
  { unfold Qltb. apply negb_true_iff. apply not_true_iff_false.
    intros Hle%Qle_bool_iff. lra. }
  by cbn.
Qed.

Lemma hasty_fetch_raises :
  let r := BasicScraper.fetch BasicScraper.site_env hasty "/json" BasicScraper.start in
  r.1 = Raise ValueError
  ∧ BasicScraper.gets r.2 = 1%nat
  ∧ BasicScraper.slept (BasicScraper.trace r.2) = [].
Proof.
  apply (fetch_negative_delay BasicScraper.site_env hasty "/json" BasicScraper.start).
  - cbn. lra.
  - reflexivity.
Defined.

(** * The browser scraper *)



(** X20. What happens before the [try] block of [scrape] is neither caught
    nor cleaned up: called on a scraper that was not entered, [scrape]
    raises [AttributeError] and does nothing; and when setting up the page
    raises, the exception leaves [scrape] and the context just opened is
    not closed. *)
Theorem scrape_setup_failure (env : DynamicScraper.Env) (self : DynamicScraper.Scraper)
    (u : string) (wait_for : option string) (shot : bool)
    (tr : list DynamicScraper.Event) :
  (DynamicScraper.entered self = false →
   DynamicScraper.scrape env self u wait_for shot tr = (Raise AttributeError, tr))
  ∧ ∀ e,
      DynamicScraper.entered self = true →
      DynamicScraper.new_context env = Ok tt →
      DynamicScraper.setup_raises env self e →
      let r := DynamicScraper.scrape env self u wait_for shot tr in
      r.1 = Raise e
      ∧ DynamicScraper.opens r.2 = S (DynamicScraper.opens tr)
      ∧ DynamicScraper.closes r.2 = DynamicScraper.closes tr.
Proof.
  split.
  - intros Hout. unfold DynamicScraper.scrape. by rewrite Hout.
  - intros e Hentered Hctx Hraises. cbn zeta.
    unfold DynamicScraper.scrape, DynamicScraper.setup_page,
      DynamicScraper.bind, DynamicScraper.call, DynamicScraper.ret.
    rewrite Hentered, Hctx. cbn [negb].
    destruct Hraises as [-> | (-> & [[-> ->] | (Hinit & [-> | [-> ->]])])]; [by cbn|by cbn|..];
      (destruct (DynamicScraper.stealth self); [rewrite (Hinit eq_refl)|]); by cbn.
Qed.

Lemma pageless_context_leaks :
  let r := DynamicScraper.scrape DynamicScraper.pageless DynamicScraper.stealthy
             "https://httpbin.org/html" None false [] in
  r.1 = Raise ConnectionError
  ∧ DynamicScraper.opens r.2 = 1%nat
  ∧ DynamicScraper.closes r.2 = 0%nat.
Proof.
  destruct (scrape_setup_failure DynamicScraper.pageless DynamicScraper.stealthy
              "https://httpbin.org/html" None false []) as [_ Hleak].
  apply (Hleak ConnectionError); [reflexivity|reflexivity|by left].
Defined.
